(** * torchgeometry: the homography warper

    A shallow embedding of [torchgeometry/homography_warper.py]:
    [create_meshgrid], the [HomographyWarper] layer ([__init__],
    [warp_grid], [random_warp], [crop_and_warp], [forward]), the
    functional entry point [homography_warp], and the two unit tests of
    [test/test_functional.py].

    Conventions of the embedding.
    - Tensor elements are exact rationals ([Q], kept in reduced form):
      floating-point rounding is not represented, and a division by zero
      gives 0 where floating point gives an infinity or NaN.
    - A tensor value is its shape, its elements in row-major order and
      the device it lives on.  Python integers are [Z]; [/] on integers
      is Python 3's true division.
    - A Python exception is the [Err] case of [result]; the exception
      classes are those the interpreter and the tensor library raise.
    - The tensor-library primitives the module calls ([torch.linspace],
      [torch.meshgrid], [torch.stack], [Tensor.view], indexing,
      [permute], [expand], [to], [F.grid_sample]) follow the library's
      documented behaviour: [linspace] with one step returns the start
      value and with zero steps the empty tensor; [view] infers a single
      [-1]; [grid_sample] maps [-1] and [1] to the centres of the first
      and last pixel.
    - [transform_points] is imported from the repository's [conversions]
      module, whose source is not at hand; it is modelled from its
      specification.
    - The value-level definitions come first; the last part of the
      definitions models tensors as references into a store, to state what
      a method leaves unchanged, and is proved to compute the same values. *)

From Stdlib Require Import String Ascii DecimalString.
From Stdlib Require Import ZArith QArith Qround List Lia Bool.
Import ListNotations.

Local Open Scope string_scope.
Local Open Scope list_scope.
Local Open Scope Z_scope.

(** ** Exceptions and results *)

Inductive exn : Type :=
| RuntimeError (msg : string)
| TypeError (msg : string)
| ValueError (msg : string)
| IndexError (msg : string)
| AssertionError (msg : string)
| NameError (name : string)
| ZeroDivisionError (msg : string).

Inductive result (A : Type) : Type :=
| Ok (a : A)
| Err (e : exn).

Arguments Ok {A} a.
Arguments Err {A} e.

Definition bind {A B : Type} (c : result A) (k : A -> result B) : result B :=
  match c with
  | Ok a => k a
  | Err e => Err e
  end.

Notation "x <- c ;; k" := (bind c (fun x => k))
  (at level 61, c at next level, right associativity).
Notation "' pat <- c ;; k" := (bind c (fun x => match x with pat => k end))
  (at level 61, pat pattern, c at next level, right associativity).

(** Python's [assert cond, msg]. *)
Definition py_assert (cond : bool) (msg : string) : result unit :=
  if cond then Ok tt else Err (AssertionError msg).

(** ** Devices *)

Inductive Device : Type :=
| cpu
| cuda (index : nat).

Definition device_eqb (d1 d2 : Device) : bool :=
  match d1, d2 with
  | cpu, cpu => true
  | cuda i, cuda j => Nat.eqb i j
  | _, _ => false
  end.

(** [str(device)], as [format] prints it. *)
Definition device_str (d : Device) : string :=
  match d with
  | cpu => "cpu"
  | cuda i => String.append "cuda:" (NilEmpty.string_of_uint (Nat.to_uint i))
  end.

Definition is_cuda_device (d : Device) : bool :=
  match d with cpu => false | cuda _ => true end.

(** ** Tensors *)

Record Tensor : Type := mkTensor {
  shape : list Z;
  data : list Q;
  device : Device
}.

Definition numel (sh : list Z) : Z := fold_right Z.mul 1 sh.

(** Row-major strides of a contiguous tensor of shape [sh]. *)
Fixpoint contiguous_strides (sh : list Z) : list Z :=
  match sh with
  | [] => []
  | _ :: rest => numel rest :: contiguous_strides rest
  end.

(** The elements a view with the given sizes and strides exposes, read from
    the flat storage [d] starting at [off], in row-major order of the view. *)
Fixpoint strided_read (d : list Q) (sizes strides : list Z) (off : Z) : list Q :=
  match sizes, strides with
  | n :: sizes', s :: strides' =>
      flat_map (fun i => strided_read d sizes' strides' (off + Z.of_nat i * s))
               (seq 0 (Z.to_nat n))
  | _, _ => [nth (Z.to_nat off) d 0%Q]
  end.

(** A well-formed tensor has non-negative sizes and as many elements as its
    shape says. *)
Definition wf (t : Tensor) : Prop :=
  Forall (fun d => 0 <= d) (shape t) /\
  Z.of_nat (length (data t)) = numel (shape t).

(** Offset of a multi-index in row-major order. *)
Definition flat_index (sh idx : list Z) : Z :=
  fold_left (fun acc di => acc * fst di + snd di) (combine sh idx) 0.

(** [t[idx]] for a full multi-index. *)
Definition get (t : Tensor) (idx : list Z) : Q :=
  nth (Z.to_nat (flat_index (shape t) idx)) (data t) 0%Q.

(** ** Tensor-library primitives *)

(** [i]-th of [steps] evenly spaced values from [start] to [stop]. *)
Definition linspace_value (start stop : Q) (steps : Z) (i : nat) : Q :=
  if steps =? 1 then start
  else Qred (start + inject_Z (Z.of_nat i) * ((stop - start) / inject_Z (steps - 1))).

(** [torch.linspace(start, stop, steps)]. *)
Definition linspace (start stop : Q) (steps : Z) : result Tensor :=
  if steps <? 0 then Err (RuntimeError "number of steps must be non-negative")
  else Ok (mkTensor [steps]
                    (map (linspace_value start stop steps) (seq 0 (Z.to_nat steps)))
                    cpu).

(** [torch.meshgrid([a, b])] of two one-dimensional tensors: two tensors of
    shape (len a, len b); the first repeats [a] along the columns, the second
    repeats [b] along the rows. *)
Definition meshgrid (ts : list Tensor) : result (list Tensor) :=
  match ts with
  | [a; b] =>
      match shape a, shape b with
      | [n], [m] =>
          Ok [ mkTensor [n; m]
                        (flat_map (fun v => repeat v (Z.to_nat m)) (data a))
                        (device a);
               mkTensor [n; m]
                        (concat (repeat (data b) (Z.to_nat n)))
                        (device b) ]
      | _, _ => Err (RuntimeError "Expected scalar or 1D tensor in the tensor list")
      end
  | _ => Err (RuntimeError "meshgrid: two tensors expected")
  end.

Definition list_Z_eqb (l1 l2 : list Z) : bool :=
  (Nat.eqb (length l1) (length l2)) &&
  forallb (fun p => fst p =? snd p) (combine l1 l2).

(** [torch.stack(ts)] along a new leading dimension. *)
Definition stack (ts : list Tensor) : result Tensor :=
  match ts with
  | [] => Err (RuntimeError "stack expects a non-empty TensorList")
  | t0 :: rest =>
      if forallb (fun t => list_Z_eqb (shape t) (shape t0)) rest
      then Ok (mkTensor (Z.of_nat (length ts) :: shape t0)
                        (flat_map data ts)
                        (device t0))
      else Err (RuntimeError "stack expects each tensor to be equal size")
  end.

(** Shape inference of [view]: at most one [-1], which is computed from the
    number of elements. *)
Definition infer_size (dims : list Z) (n : Z) : result (list Z) :=
  if existsb (fun d => d <? -1) dims
  then Err (RuntimeError "invalid shape dimension")
  else
    let newsize := numel (filter (fun d => negb (d =? -1)) dims) in
    let ninfer := length (filter (fun d => d =? -1) dims) in
    match ninfer with
    | O => if n =? newsize then Ok dims
           else Err (RuntimeError "shape is invalid for input size")
    | S O =>
        if (n =? newsize) || ((0 <? newsize) && (n mod newsize =? 0))
        then if newsize =? 0
             then Err (RuntimeError "cannot reshape tensor of 0 elements: the unspecified dimension size -1 can be any value and is ambiguous")
             else Ok (map (fun d => if d =? -1 then n / newsize else d) dims)
        else Err (RuntimeError "shape is invalid for input size")
    | _ => Err (RuntimeError "only one dimension can be inferred")
    end.

(** [t.view(dims)] of a contiguous tensor. *)
Definition view (t : Tensor) (dims : list Z) : result Tensor :=
  sh <- infer_size dims (numel (shape t)) ;;
  Ok (mkTensor sh (data t) (device t)).

(** [t[:, idxs, :]] on a three-dimensional tensor: the listed slices of the
    middle dimension, in the order of [idxs]. *)
Definition index_dim1 (t : Tensor) (idxs : list Z) : result Tensor :=
  match shape t with
  | [a; b; c] =>
      if forallb (fun j => (0 <=? j) && (j <? b)) idxs
      then Ok (mkTensor [a; Z.of_nat (length idxs); c]
                 (flat_map (fun i =>
                    flat_map (fun j =>
                      firstn (Z.to_nat c)
                             (skipn (Z.to_nat ((Z.of_nat i * b + j) * c)) (data t)))
                      idxs)
                    (seq 0 (Z.to_nat a)))
                 (device t))
      else Err (IndexError "index out of range")
  | _ => Err (IndexError "too many indices for tensor")
  end.

(** ** The coordinate grid *)

(** [create_meshgrid(height, width, normalized_coordinates)]. *)
Definition create_meshgrid (height width : Z) (normalized_coordinates : bool)
  : result Tensor :=
  ' (xs, ys) <-
      (if normalized_coordinates then
         xs <- linspace (-1) 1 width ;;
         ys <- linspace (-1) 1 height ;;
         Ok (xs, ys)
       else
         xs <- linspace 0 (inject_Z (width - 1)) width ;;
         ys <- linspace 0 (inject_Z (height - 1)) height ;;
         Ok (xs, ys)) ;;
  grids <- meshgrid [ys; xs] ;;
  stacked <- stack grids ;;
  flat <- view stacked [1; 2; -1] ;;
  index_dim1 flat [1; 0].

(** ** More tensor-library primitives *)

(** [t.size(k)] and [t.shape[k]]. *)
Definition size (t : Tensor) (k : nat) : result Z :=
  match nth_error (shape t) k with
  | Some d => Ok d
  | None => Err (IndexError "Dimension out of range")
  end.

(** [dims] lists every position below [n] exactly once. *)
Definition is_permutation (dims : list nat) (n : nat) : bool :=
  Nat.eqb (length dims) n &&
  forallb (fun k => existsb (Nat.eqb k) dims) (seq 0 n).

(** [t.permute(dims)]: the view with sizes and strides reordered, read out
    in its own row-major order. *)
Definition permute (t : Tensor) (dims : list nat) : result Tensor :=
  if is_permutation dims (length (shape t))
  then
    let sizes := map (fun k => nth k (shape t) 0) dims in
    let strides := map (fun k => nth k (contiguous_strides (shape t)) 0) dims in
    Ok (mkTensor sizes (strided_read (data t) sizes strides 0) (device t))
  else Err (RuntimeError "number of dims don't match in permute").

(** Sizes and strides of [expand]: [old] are the (size, stride) pairs of the
    tensor padded on the left, [new] the requested sizes. *)
Fixpoint expand_dims (old : list (option (Z * Z))) (new : list Z)
  : result (list (Z * Z)) :=
  match old, new with
  | [], [] => Ok []
  | o :: old', n :: new' =>
      rest <- expand_dims old' new' ;;
      match o with
      | None =>
          if n <? 0
          then Err (RuntimeError "expanded size -1 not allowed in a leading, non-existing dimension")
          else Ok ((n, 0) :: rest)
      | Some (sz, st) =>
          if (n =? -1) || (n =? sz) then Ok ((sz, st) :: rest)
          else if (sz =? 1) && (0 <=? n) then Ok ((n, 0) :: rest)
          else Err (RuntimeError "expanded size must match the existing size at non-singleton dimension")
      end
  | _, _ => Err (RuntimeError "expand: size mismatch")
  end.

(** [t.expand(sizes)]: singleton and new leading dimensions are repeated
    with stride 0. *)
Definition expand (t : Tensor) (sizes : list Z) : result Tensor :=
  let r := length (shape t) in
  let n := length sizes in
  if Nat.ltb n r
  then Err (RuntimeError "the number of sizes provided must be greater or equal to the number of dimensions in the tensor")
  else
    let old := repeat None (n - r) ++
               map Some (combine (shape t) (contiguous_strides (shape t))) in
    dims <- expand_dims old sizes ;;
    Ok (mkTensor (map fst dims)
                 (strided_read (data t) (map fst dims) (map snd dims) 0)
                 (device t)).

(** [l[-2:]]. *)
Definition last_two {A : Type} (l : list A) : list A :=
  skipn (length l - 2) l.

(** [t.to(d)]. *)
Definition to (t : Tensor) (d : Device) : Tensor :=
  mkTensor (shape t) (data t) d.

(** [t.type_as(other)]: elements are exact rationals, so the cast keeps
    them. *)
Definition type_as (t other : Tensor) : Tensor := t.

(** [t.cuda()]: the current accelerator is device 0. *)
Definition to_cuda (t : Tensor) : Tensor := to t (cuda 0).

(** [torch.FloatTensor(values)]: a one-dimensional tensor on the host. *)
Definition FloatTensor (values : list Q) : Tensor :=
  mkTensor [Z.of_nat (length values)] (map Qred values) cpu.

(** Row [i] of a flat list cut in rows of [n] elements. *)
Definition row (n : nat) (l : list Q) (i : nat) : list Q :=
  firstn n (skipn (i * n) l).

(** The elementwise operations [t * v] and [t + v] where [v] is
    one-dimensional and is broadcast along the last dimension of [t] (the
    only broadcast the module uses). *)
Definition broadcast_last (op : Q -> Q -> Q) (t v : Tensor) : result Tensor :=
  match shape v with
  | [k] =>
      if negb (device_eqb (device t) (device v))
      then Err (RuntimeError "expected all tensors to be on the same device")
      else if (0 <? k) && (last (shape t) 1 =? k)
      then Ok (mkTensor (shape t)
                 (map (fun p => Qred (op (snd p)
                                         (nth (fst p mod Z.to_nat k) (data v) 0%Q)))
                      (combine (seq 0 (length (data t))) (data t)))
                 (device t))
      else Err (RuntimeError "the size of the tensors must match at the last dimension")
  | _ => Err (RuntimeError "broadcast_last: one-dimensional right operand expected")
  end.

Definition tensor_mul : Tensor -> Tensor -> result Tensor := broadcast_last Qmult.
Definition tensor_add : Tensor -> Tensor -> result Tensor := broadcast_last Qplus.

(** *** Resampling: [F.grid_sample] *)

Definition clampQ (lo hi v : Q) : Q :=
  if Qle_bool v lo then lo else if Qle_bool hi v then hi else v.

(** Pixel coordinate of a normalized coordinate: [-1] is the centre of pixel
    0 and [1] the centre of pixel [sz - 1]. *)
Definition unnormalize (coord : Q) (sz : Z) : Q :=
  ((coord + 1) / 2) * inject_Z (sz - 1).

(** [input[n, c, y, x]], and 0 outside the image. *)
Definition pixel (input : Tensor) (C Hin Win : Z) (n c y x : Z) : Q :=
  if (0 <=? y) && (y <? Hin) && (0 <=? x) && (x <? Win)
  then nth (Z.to_nat (((n * C + c) * Hin + y) * Win + x)) (data input) 0%Q
  else 0%Q.

(** Round to the nearest integer, ties to even. *)
Definition nearest_int (v : Q) : Z :=
  let f := Qfloor v in
  let r := (v - inject_Z f)%Q in
  match (r ?= 1 # 2)%Q with
  | Lt => f
  | Gt => f + 1
  | Eq => if Z.even f then f else f + 1
  end.

Definition sample (input : Tensor) (C Hin Win : Z) (mode padding_mode : string)
                  (n c : Z) (gx gy : Q) : Q :=
  let ix0 := unnormalize gx Win in
  let iy0 := unnormalize gy Hin in
  let ix := if String.eqb padding_mode "border"
            then clampQ 0 (inject_Z (Win - 1)) ix0 else ix0 in
  let iy := if String.eqb padding_mode "border"
            then clampQ 0 (inject_Z (Hin - 1)) iy0 else iy0 in
  if String.eqb mode "nearest"
  then pixel input C Hin Win n c (nearest_int iy) (nearest_int ix)
  else
    let x0 := Qfloor ix in
    let y0 := Qfloor iy in
    let wx1 := (ix - inject_Z x0)%Q in
    let wy1 := (iy - inject_Z y0)%Q in
    let wx0 := (1 - wx1)%Q in
    let wy0 := (1 - wy1)%Q in
    Qred (pixel input C Hin Win n c y0 x0 * wx0 * wy0
          + pixel input C Hin Win n c y0 (x0 + 1) * wx1 * wy0
          + pixel input C Hin Win n c (y0 + 1) x0 * wx0 * wy1
          + pixel input C Hin Win n c (y0 + 1) (x0 + 1) * wx1 * wy1)%Q.

Definition znat (n : nat) : Z := Z.of_nat n.

(** [F.grid_sample(input, grid, mode, padding_mode)]: for every batch
    element and channel, the image read at the grid's (x, y) locations. *)
Definition grid_sample (input grid : Tensor) (mode padding_mode : string)
  : result Tensor :=
  if negb (String.eqb mode "bilinear" || String.eqb mode "nearest")
  then Err (ValueError "grid_sample: mode must be bilinear or nearest")
  else if negb (String.eqb padding_mode "zeros" || String.eqb padding_mode "border")
  then Err (ValueError "grid_sample: padding_mode must be zeros or border")
  else
    match shape input, shape grid with
    | [N; C; Hin; Win], [Ng; Hout; Wout; two] =>
        if negb (device_eqb (device input) (device grid))
        then Err (RuntimeError "grid_sample: input and grid on different devices")
        else if (N =? Ng) && (two =? 2)
        then
          Ok (mkTensor [N; C; Hout; Wout]
                (flat_map (fun n =>
                   flat_map (fun c =>
                     flat_map (fun i =>
                       map (fun j =>
                              let k := Z.to_nat
                                ((((znat n * Hout + znat i) * Wout + znat j) * 2)) in
                              sample input C Hin Win mode padding_mode
                                     (znat n) (znat c)
                                     (nth k (data grid) 0%Q)
                                     (nth (S k) (data grid) 0%Q))
                           (seq 0 (Z.to_nat Wout)))
                       (seq 0 (Z.to_nat Hout)))
                     (seq 0 (Z.to_nat C)))
                   (seq 0 (Z.to_nat N)))
                (device input))
        else Err (RuntimeError "grid_sample: grid and input batch sizes or grid's last dimension do not match")
    | _, _ => Err (RuntimeError "grid_sample: 4-D input and 4-D grid expected")
    end.

(** ** Point transform *)

(** Modelled from the spec: [convert_points_to_homogeneous] of the
    repository's [conversions] module, which is not among the sources;
    it appends a trailing 1 to every point. *)
Definition convert_points_to_homogeneous (points : Tensor) : result Tensor :=
  match rev (shape points) with
  | [] => Err (ValueError "Input must be at least a 2D tensor")
  | d :: lead =>
      Ok (mkTensor (rev lead ++ [d + 1])
            (flat_map (fun i => row (Z.to_nat d) (data points) i ++ [1%Q])
                      (seq 0 (Z.to_nat (numel lead))))
            (device points))
  end.

(** Modelled from the spec: [convert_points_from_homogeneous] of the
    [conversions] module, not among the sources; it returns the leading
    components of every point without dividing by the last one. *)
Definition convert_points_from_homogeneous (points_h : Tensor) : result Tensor :=
  match rev (shape points_h) with
  | [] => Err (ValueError "Input must be at least a 2D tensor")
  | d :: lead =>
      if d <? 1 then Err (ValueError "Input must have at least one component")
      else
        Ok (mkTensor (rev lead ++ [d - 1])
              (flat_map (fun i => firstn (Z.to_nat (d - 1))
                                         (row (Z.to_nat d) (data points_h) i))
                        (seq 0 (Z.to_nat (numel lead))))
              (device points_h))
  end.

Definition dot (u v : list Q) : Q :=
  fold_right Qplus 0%Q (map (fun p => (fst p * snd p)%Q) (combine u v)).

(** The 3x3 matrix [m] (row-major) applied to the homogeneous point [p],
    followed by the division by the last coordinate. *)
Definition apply_homography (m p : list Q) : list Q :=
  let q := map (fun i => dot (row 3 m i) p) (seq 0 3) in
  let s := nth 2 q 0%Q in
  map (fun c => Qred (c / s)) q.

(** Modelled from the spec: [transform_points] of the [conversions] module,
    not among the sources.  The points (batch, N, 2) are made homogeneous,
    every homogeneous point is multiplied by the batch element's 3x3
    transform (a batch of one is broadcast against the other operand), the
    result is divided by its last coordinate, which is then dropped. *)
Definition transform_points (dst_homo_src points_src : Tensor) : result Tensor :=
  match shape dst_homo_src, shape points_src with
  | [bh; r; c], [bp; n; d] =>
      if negb ((r =? 3) && (c =? 3))
      then Err (ValueError "transform_points: (B, 3, 3) transforms expected")
      else if negb (device_eqb (device dst_homo_src) (device points_src))
      then Err (RuntimeError "transform_points: tensors on different devices")
      else if negb (d + 1 =? 3)
      then Err (RuntimeError "transform_points: size mismatch in the matrix product")
      else if negb ((bh =? bp) || (bh =? 1) || (bp =? 1))
      then Err (RuntimeError "transform_points: batch sizes cannot be broadcast")
      else
        points_h <- convert_points_to_homogeneous points_src ;;
        let b := if bh =? 1 then bp else bh in
        let points_dst_h :=
          mkTensor [b; n; 3]
            (flat_map (fun ib =>
               flat_map (fun ip =>
                  apply_homography
                    (row 9 (data dst_homo_src) (if bh =? 1 then 0%nat else ib))
                    (row 3 (data points_h)
                         ((if bp =? 1 then 0%nat else ib) * Z.to_nat n + ip)))
                  (seq 0 (Z.to_nat n)))
               (seq 0 (Z.to_nat b)))
            (device dst_homo_src) in
        convert_points_from_homogeneous points_dst_h
  | _, _ => Err (ValueError "transform_points: three-dimensional tensors expected")
  end.

(** ** The warper *)

Record HomographyWarper : Type := mkWarper {
  height : Z;
  width : Z;
  grid : Tensor
}.

(** [HomographyWarper.__init__(self, height, width, points=None)]. *)
Definition HomographyWarper_init (height width : Z) (points : option Tensor)
  : result HomographyWarper :=
  match points with
  | Some points =>
      s0 <- size points 0 ;;
      _ <- py_assert (s0 =? 3) "Points must be 3xN" ;;
      s1 <- size points 1 ;;
      Ok (mkWarper 1 s1 points)
  | None =>
      g <- create_meshgrid height width true ;;
      g' <- permute g [0; 2; 1]%nat ;;
      Ok (mkWarper height width g')
  end.

(** [HomographyWarper.warp_grid(self, H)]. *)
Definition warp_grid (self : HomographyWarper) (H : Tensor) : result Tensor :=
  batch_size <- size H 0 ;;
  g <- expand (grid self) (batch_size :: last_two (shape (grid self))) ;;
  flow <- transform_points H (type_as (to g (device H)) H) ;;
  view flow [batch_size; height self; width self; 2].

(** [template.format(args)]: every [{}] field is replaced by the next
    argument; the module calls it with as many arguments as fields. *)
Fixpoint py_format (template : string) (args : list string) : string :=
  match template with
  | EmptyString => EmptyString
  | String c rest =>
      match c, rest, args with
      | "{"%char, String "}"%char rest', a :: args' =>
          String.append a (py_format rest' args')
      | _, _, _ => String c (py_format rest args)
      end
  end.

(** The message of [forward]'s device check.  The literal continues over a
    line break escaped by a backslash, so the indentation of the second line
    is part of it. *)
Definition device_mismatch_template : string :=
  "Patch and homography must be on the same device.                             Got patch.device: {} dst_H_src.device: {}.".

(** [HomographyWarper.forward(self, patch, dst_homo_src, padding_mode)]. *)
Definition forward (self : HomographyWarper) (patch dst_homo_src : Tensor)
                   (padding_mode : string) : result Tensor :=
  if negb (device_eqb (device dst_homo_src) (device patch))
  then Err (TypeError (py_format device_mismatch_template
                         [device_str (device patch);
                          device_str (device dst_homo_src)]))
  else
    g <- warp_grid self dst_homo_src ;;
    grid_sample patch g "bilinear" padding_mode.

(** [nn.Module.__call__]: a freshly constructed module has no hooks, so the
    call is the call of [forward]. *)
Definition module_call (self : HomographyWarper) (patch dst_homo_src : Tensor)
                       (padding_mode : string) : result Tensor :=
  forward self patch dst_homo_src padding_mode.

(** [homography_warp(patch, dst_H_src, dsize, points, padding_mode)]. *)
Definition homography_warp (patch dst_H_src : Tensor) (dsize : Z * Z)
                           (points : option Tensor) (padding_mode : string)
  : result Tensor :=
  let '(height, width) := dsize in
  warper <- HomographyWarper_init height width points ;;
  module_call warper patch dst_H_src padding_mode.

(** *** Name resolution in the module *)

Inductive pyobject : Type :=
| PyModule (qualname : string)
| PyFunction (qualname : string)
| PyClass (qualname : string)
| PyList (items : list string).

(** The global names of [homography_warper.py]: its three imports of the
    tensor library, the import from [conversions], [__all__] and its own
    three definitions.  ([Variable] and [random_homography] are not Python
    builtins either.) *)
Definition module_globals : list (string * pyobject) :=
  [ ("torch", PyModule "torch");
    ("nn", PyModule "torch.nn");
    ("F", PyModule "torch.nn.functional");
    ("transform_points", PyFunction "torchgeometry.conversions.transform_points");
    ("__all__", PyList ["HomographyWarper"; "homography_warp"]);
    ("create_meshgrid", PyFunction "torchgeometry.homography_warper.create_meshgrid");
    ("HomographyWarper", PyClass "torchgeometry.homography_warper.HomographyWarper");
    ("homography_warp", PyFunction "torchgeometry.homography_warper.homography_warp") ].

Definition lookup_name (ns : list (string * pyobject)) (name : string)
  : result pyobject :=
  match find (fun p => String.eqb (fst p) name) ns with
  | Some p => Ok (snd p)
  | None => Err (NameError name)
  end.

(** The tensor library's [torch.autograd.Variable], had the module imported
    it. *)
Definition Variable_class : pyobject := PyClass "torch.autograd.Variable".

(** Calling the object a name resolved to on a tensor: [Variable] wraps a
    tensor and is the tensor itself; a module or a list is not callable. *)
Definition call_on_tensor (callee : pyobject) (arg : Tensor) : result Tensor :=
  match callee with
  | PyClass c =>
      if String.eqb c "torch.autograd.Variable" then Ok arg
      else Err (TypeError "unexpected argument")
  | PyFunction _ => Err (TypeError "unexpected argument")
  | _ => Err (TypeError "object is not callable")
  end.

(** [roi[k]] on a Python sequence of integers. *)
Definition py_index (l : list Z) (k : nat) : result Z :=
  match nth_error l k with
  | Some v => Ok v
  | None => Err (IndexError "tuple index out of range")
  end.

(** Python 3's [a / b] on integers. *)
Definition py_truediv (a b : Z) : result Q :=
  if b =? 0 then Err (ZeroDivisionError "division by zero")
  else Ok (Qred (inject_Z a / inject_Z b)).

Definition Z_str (z : Z) : string := NilEmpty.string_of_int (Z.to_int z).

Definition shape_str (sh : list Z) : string :=
  String.append "torch.Size(["
    (String.append (String.concat ", " (map Z_str sh)) "])").

(** The affine coefficients [crop_and_warp] computes from the region of
    interest: [(a_x, a_y, b_x, b_y)]. *)
Definition roi_coefficients (width height : Z) (roi : list Z)
  : result (Q * Q * Q * Q) :=
  r2 <- py_index roi 2 ;;
  r3 <- py_index roi 3 ;;
  let start_x := r2 in
  let end_x := r3 - 1 in
  r0 <- py_index roi 0 ;;
  r1 <- py_index roi 1 ;;
  let start_y := r0 in
  let end_y := r1 - 1 in
  qsx <- py_truediv (2 * start_x) width ;;
  let start_x := Qred (qsx - 1) in
  qex <- py_truediv (2 * end_x) width ;;
  let end_x := Qred (qex - 1) in
  qsy <- py_truediv (2 * start_y) height ;;
  let start_y := Qred (qsy - 1) in
  qey <- py_truediv (2 * end_y) height ;;
  let end_y := Qred (qey - 1) in
  let b_x := Qred ((start_x + end_x) / 2) in
  let a_x := Qred (b_x - start_x) in
  let b_y := Qred ((start_y + end_y) / 2) in
  let a_y := Qred (b_y - start_y) in
  Ok (a_x, a_y, b_x, b_y).

(** The last lines of [crop_and_warp]: the coefficients are wrapped in
    tensors by way of the name [Variable], moved to the accelerator when the
    grid is there, the grid is remapped as [grid * a + b] and the image is
    resampled at the remapped grid. *)
Definition remap_and_resample (ns : list (string * pyobject))
    (g image : Tensor) (a_x a_y b_x b_y : Q) (padding_mode : string)
  : result Tensor :=
  callee <- lookup_name ns "Variable" ;;
  a <- call_on_tensor callee (FloatTensor [a_x; a_y]) ;;
  callee <- lookup_name ns "Variable" ;;
  b <- call_on_tensor callee (FloatTensor [b_x; b_y]) ;;
  let a := if is_cuda_device (device g) then to_cuda a else a in
  let b := if is_cuda_device (device g) then to_cuda b else b in
  ga <- tensor_mul g a ;;
  g' <- tensor_add ga b ;;
  grid_sample image g' "bilinear" padding_mode.

(** [HomographyWarper.crop_and_warp(self, H, image, roi, padding_mode)],
    with the global names of the executing module as a parameter. *)
Definition crop_and_warp_in (ns : list (string * pyobject))
    (self : HomographyWarper) (H image : Tensor) (roi : list Z)
    (padding_mode : string) : result Tensor :=
  g <- warp_grid self H ;;
  _ <- py_assert (Nat.eqb (length (shape image)) 4) (shape_str (shape image)) ;;
  let width := nth 3 (shape image) 0 in
  let height := nth 2 (shape image) 0 in
  ' (a_x, a_y, b_x, b_y) <- roi_coefficients width height roi ;;
  remap_and_resample ns g image a_x a_y b_x b_y padding_mode.

(** The method as the module defines it: its names resolve in
    [module_globals]. *)
Definition crop_and_warp : HomographyWarper -> Tensor -> Tensor -> list Z ->
                           string -> result Tensor :=
  crop_and_warp_in module_globals.

(** A batch of 3x3 identity matrices. *)
Definition eye3 (batch : nat) (d : Device) : Tensor :=
  mkTensor [Z.of_nat batch; 3; 3]
           (concat (repeat [1; 0; 0; 0; 1; 0; 0; 0; 1]%Q batch)) d.

(** ** The warper as an object: storages, views and attributes

    [expand], [view] and [permute] return views that share the storage of
    the tensor they are applied to, and [to] returns its argument when the
    device already matches.  To state what a method may change, tensors are
    here references into a store of storages, and the warper is an object
    whose attributes a method could assign. *)

Definition store : Type := list (list Q).

Record tensor_ref : Type := mkRef {
  storage : nat;
  offset : Z;
  sizes : list Z;
  strides : list Z;
  ref_device : Device
}.

(** The tensor value a reference denotes in a store. *)
Definition value_of (st : store) (r : tensor_ref) : Tensor :=
  mkTensor (sizes r)
           (strided_read (nth (storage r) st []) (sizes r) (strides r) (offset r))
           (ref_device r).

(** A new tensor gets a storage of its own, after the existing ones. *)
Definition alloc (st : store) (t : Tensor) : tensor_ref * store :=
  (mkRef (length st) 0 (shape t) (contiguous_strides (shape t)) (device t),
   st ++ [data t]).

Record warper_object : Type := mkObject {
  obj_height : Z;
  obj_width : Z;
  obj_grid : tensor_ref
}.

(** The state a method runs in: the attributes of [self] and the store. *)
Definition state : Type := warper_object * store.

(** A computation that may raise and may change the state; the state
    survives an exception. *)
Definition M (A : Type) : Type := state -> result A * state.

Definition ret {A : Type} (a : A) : M A := fun s => (Ok a, s).

Definition lift {A : Type} (r : result A) : M A := fun s => (r, s).

Definition bindM {A B : Type} (c : M A) (k : A -> M B) : M B :=
  fun s =>
    match c s with
    | (Ok a, s') => k a s'
    | (Err e, s') => (Err e, s')
    end.

Notation "x <~ c ;; k" := (bindM c (fun x => k))
  (at level 61, c at next level, right associativity).

(** Reading the attributes of [self]. *)
Definition self_height : M Z := fun s => (Ok (obj_height (fst s)), s).
Definition self_width : M Z := fun s => (Ok (obj_width (fst s)), s).
Definition self_grid : M tensor_ref := fun s => (Ok (obj_grid (fst s)), s).

(** [r.shape[k]]. *)
Definition size_ref (r : tensor_ref) (k : nat) : result Z :=
  match nth_error (sizes r) k with
  | Some d => Ok d
  | None => Err (IndexError "Dimension out of range")
  end.

(** [r.expand(new_sizes)]: a view on the storage of [r]. *)
Definition expand_ref (r : tensor_ref) (new_sizes : list Z) : result tensor_ref :=
  let k := length (sizes r) in
  let n := length new_sizes in
  if Nat.ltb n k
  then Err (RuntimeError "the number of sizes provided must be greater or equal to the number of dimensions in the tensor")
  else
    let old := repeat None (n - k) ++ map Some (combine (sizes r) (strides r)) in
    dims <- expand_dims old new_sizes ;;
    Ok (mkRef (storage r) (offset r) (map fst dims) (map snd dims) (ref_device r)).

(** [r.permute(dims)]: a view on the storage of [r]. *)
Definition permute_ref (r : tensor_ref) (dims : list nat) : result tensor_ref :=
  if is_permutation dims (length (sizes r))
  then Ok (mkRef (storage r) (offset r)
                 (map (fun k => nth k (sizes r) 0) dims)
                 (map (fun k => nth k (strides r) 0) dims)
                 (ref_device r))
  else Err (RuntimeError "number of dims don't match in permute").

(** [r.view(dims)]: a view on the storage of [r], which must be laid out
    contiguously. *)
Definition view_ref (r : tensor_ref) (dims : list Z) : result tensor_ref :=
  if list_Z_eqb (strides r) (contiguous_strides (sizes r))
  then
    sh <- infer_size dims (numel (sizes r)) ;;
    Ok (mkRef (storage r) (offset r) sh (contiguous_strides sh) (ref_device r))
  else Err (RuntimeError "view size is not compatible with input tensor's size and stride").

(** [r.to(d)]: [r] itself when it is on [d] already, a copy otherwise. *)
Definition to_ref (r : tensor_ref) (d : Device) : M tensor_ref :=
  fun s =>
    if device_eqb (ref_device r) d then (Ok r, s)
    else
      let '(r', st') := alloc (snd s) (to (value_of (snd s) r) d) in
      (Ok r', (fst s, st')).

(** [r.type_as(other)]: [r] itself, the element type being the same. *)
Definition type_as_ref (r other : tensor_ref) : M tensor_ref := ret r.

(** [transform_points] reads its operands and returns a new tensor. *)
Definition transform_points_ref (dst_homo_src points_src : tensor_ref)
  : M tensor_ref :=
  fun s =>
    match transform_points (value_of (snd s) dst_homo_src)
                           (value_of (snd s) points_src) with
    | Ok t => let '(r, st') := alloc (snd s) t in (Ok r, (fst s, st'))
    | Err e => (Err e, s)
    end.

(** [HomographyWarper.warp_grid(self, H)] on the object. *)
Definition warp_grid_obj (H : tensor_ref) : M tensor_ref :=
  batch_size <~ lift (size_ref H 0) ;;
  g0 <~ self_grid ;;
  g0' <~ self_grid ;;
  g <~ lift (expand_ref g0 (batch_size :: last_two (sizes g0'))) ;;
  g1 <~ to_ref g (ref_device H) ;;
  g2 <~ type_as_ref g1 H ;;
  flow <~ transform_points_ref H g2 ;;
  h <~ self_height ;;
  w <~ self_width ;;
  lift (view_ref flow [batch_size; h; w; 2]).

(** [HomographyWarper.__init__] on the object: in full-image mode the
    template grid is a permuted view of the mesh grid's storage; in
    explicit-points mode it is the caller's tensor itself. *)
Definition HomographyWarper_init_obj (height width : Z)
    (points : option tensor_ref) (st : store)
  : result (warper_object * store) :=
  match points with
  | Some points =>
      s0 <- size_ref points 0 ;;
      _ <- py_assert (s0 =? 3) "Points must be 3xN" ;;
      s1 <- size_ref points 1 ;;
      Ok (mkObject 1 s1 points, st)
  | None =>
      g <- create_meshgrid height width true ;;
      let '(r, st') := alloc st g in
      r' <- permute_ref r [0; 2; 1]%nat ;;
      Ok (mkObject height width r', st')
  end.

(** ** [random_warp] *)

(** [HomographyWarper.random_warp(self, patch, dist)]: the module calls
    [self] on the patch and on [random_homography(dist)], with the default
    padding mode.  The name [random_homography] is resolved in the executing
    module's names [ns]; [sampler] is what calling it would return. *)
Definition random_warp_in {A : Type} (ns : list (string * pyobject))
    (sampler : A -> result Tensor)
    (self : HomographyWarper) (patch : Tensor) (dist : A) : result Tensor :=
  callee <- lookup_name ns "random_homography" ;;
  H <- match callee with
       | PyFunction _ => sampler dist
       | _ => Err (TypeError "object is not callable")
       end ;;
  module_call self patch H "zeros".

(** The method as the module defines it. *)
Definition random_warp {A : Type} : (A -> result Tensor) -> HomographyWarper ->
                                    Tensor -> A -> result Tensor :=
  random_warp_in module_globals.

(** ** The unit tests of the point conversions

    [test/test_functional.py] draws a random tensor, converts it and
    asserts a comparison.  The conversions are those modelled above; the
    random draw is a parameter, [draws k] being the [k]-th number drawn. *)

(** [torch.rand(sh)] for the stream of numbers [draws]. *)
Definition rand (draws : nat -> Q) (sh : list Z) : Tensor :=
  mkTensor sh (map draws (seq 0 (Z.to_nat (numel sh)))) cpu.

(** [torch.ones(sh)]. *)
Definition ones (sh : list Z) : Tensor :=
  mkTensor sh (repeat 1%Q (Z.to_nat (numel sh))) cpu.

(** [t[..., -1]]: the last component along the last dimension. *)
Definition select_last (t : Tensor) : result Tensor :=
  match rev (shape t) with
  | [] => Err (IndexError "invalid index of a 0-dim tensor")
  | d :: lead =>
      if d <? 1
      then Err (IndexError "index -1 is out of bounds for dimension with size 0")
      else Ok (mkTensor (rev lead)
                 (map (fun i => nth (Z.to_nat d - 1)
                                    (row (Z.to_nat d) (data t) i) 0%Q)
                      (seq 0 (Z.to_nat (numel lead))))
                 (device t))
  end.

(** [t[..., :k]] for [k >= 0]: the first [k] components along the last
    dimension. *)
Definition narrow_last (t : Tensor) (k : Z) : result Tensor :=
  match rev (shape t) with
  | [] => Err (IndexError "too many indices for tensor of dimension 0")
  | d :: lead =>
      let k' := Z.min k d in
      Ok (mkTensor (rev lead ++ [k'])
            (flat_map (fun i => firstn (Z.to_nat k')
                                       (row (Z.to_nat d) (data t) i))
                      (seq 0 (Z.to_nat (numel lead))))
            (device t))
  end.

(** [t[..., -1] = v]: the assignment writes into [t]; the result is the
    tensor the name [t] denotes afterwards. *)
Definition fill_last (t : Tensor) (v : Q) : result Tensor :=
  match rev (shape t) with
  | [] => Err (IndexError "invalid index of a 0-dim tensor")
  | d :: lead =>
      if d <? 1
      then Err (IndexError "index -1 is out of bounds for dimension with size 0")
      else Ok (mkTensor (shape t)
                 (flat_map (fun i => firstn (Z.to_nat d - 1)
                                            (row (Z.to_nat d) (data t) i) ++ [v])
                           (seq 0 (Z.to_nat (numel lead))))
                 (device t))
  end.

(** The common shape of two operands, dimensions aligned from the last. *)
Fixpoint broadcast_rev (r1 r2 : list Z) : result (list Z) :=
  match r1, r2 with
  | [], r => Ok r
  | r, [] => Ok r
  | a :: r1', b :: r2' =>
      rest <- broadcast_rev r1' r2' ;;
      if a =? b then Ok (a :: rest)
      else if a =? 1 then Ok (b :: rest)
      else if b =? 1 then Ok (a :: rest)
      else Err (RuntimeError "The size of tensor a must match the size of tensor b at non-singleton dimension")
  end.

Definition broadcast_shapes (s1 s2 : list Z) : result (list Z) :=
  r <- broadcast_rev (rev s1) (rev s2) ;;
  Ok (rev r).

(** [a == b]: both operands are expanded to their common shape and compared
    element by element; the result holds 1 for equal and 0 for different. *)
Definition tensor_eq (a b : Tensor) : result Tensor :=
  sh <- broadcast_shapes (shape a) (shape b) ;;
  a' <- expand a sh ;;
  b' <- expand b sh ;;
  if negb (device_eqb (device a) (device b))
  then Err (RuntimeError "expected all tensors to be on the same device")
  else Ok (mkTensor sh
             (map (fun p => if Qeq_bool (fst p) (snd p) then 1%Q else 0%Q)
                  (combine (data a') (data b')))
             (device a)).

(** [t.all()]. *)
Definition tensor_all (t : Tensor) : bool :=
  forallb (fun q => negb (Qeq_bool q 0)) (data t).

(** [Tester.test_convert_points_to_homogeneous]. *)
Definition test_convert_points_to_homogeneous (draws : nat -> Q) : result unit :=
  let points := rand draws [1; 2; 3] in
  points_h <- convert_points_to_homogeneous points ;;
  last_h <- select_last points_h ;;
  eq <- tensor_eq last_h (ones [1; 2; 1]) ;;
  py_assert (tensor_all eq) "".

(** [Tester.test_convert_points_from_homogeneous]. *)
Definition test_convert_points_from_homogeneous (draws : nat -> Q) : result unit :=
  let points_h := rand draws [1; 2; 3] in
  points_h <- fill_last points_h 1 ;;
  points <- convert_points_from_homogeneous points_h ;;
  lhs <- narrow_last points_h 2 ;;
  rhs <- narrow_last points 2 ;;
  eq <- tensor_eq lhs rhs ;;
  py_assert (tensor_all eq) "".

(** ** Vocabulary of the statements and values to run them on *)

(** The samples along an axis of [n] points. *)
Definition axis (normalized : bool) (n : Z) : list Q :=
  map (linspace_value (if normalized then (-1)%Q else 0%Q)
                      (if normalized then 1%Q else inject_Z (n - 1)) n)
      (seq 0 (Z.to_nat n)).

(** The warper [HomographyWarper(2, 2)] and a 2x2 single-channel image, to
    run the definitions on. *)
Definition warper22 : HomographyWarper :=
  mkWarper 2 2 (mkTensor [1; 4; 2] [-1; -1; 1; -1; -1; 1; 1; 1]%Q cpu).

Definition image22 : Tensor := mkTensor [1; 1; 2; 2] [1; 2; 3; 4]%Q cpu.

(** [sub] occurs in [msg]. *)
Definition contains (msg sub : string) : Prop :=
  exists pre post : string, msg = (pre ++ sub ++ post)%string.

Definition is_TypeError (e : exn) : bool :=
  match e with TypeError _ => true | _ => false end.

(** A computation that raises no [TypeError]. *)
Definition no_TypeError {A : Type} (r : result A) : Prop :=
  forall e, r = Err e -> is_TypeError e = false.

(** The entry point as the specification words it: construct a warper for
    the given height, width and points, then call its [forward]. *)
Definition homography_warp_spec (patch dst_H_src : Tensor) (height width : Z)
    (points : option Tensor) (padding_mode : string) : result Tensor :=
  match HomographyWarper_init height width points with
  | Ok warper => forward warper patch dst_H_src padding_mode
  | Err e => Err e
  end.

(** A computation that assigns no attribute of [self] and only adds
    storages to the store. *)
Definition preserves {A : Type} (c : M A) : Prop :=
  forall s : state,
    fst (snd (c s)) = fst s /\ exists ext, snd (snd (c s)) = snd s ++ ext.

(** A store holding two homographies, and a 2x3 warper constructed in it. *)
Definition homographies_ref : tensor_ref := mkRef 0 0 [2; 3; 3] [9; 3; 1] cpu.

Definition store23 : store :=
  [ data (eye3 2 cpu);
    [-1; 0; 1; -1; 0; 1; -1; -1; -1; 1; 1; 1]%Q ].

Definition object23 : warper_object :=
  mkObject 2 3 (mkRef 1 0 [1; 6; 2] [12; 1; 6] cpu).

(** The module's names with [Variable] imported from the tensor library. *)
Definition module_globals_with_Variable : list (string * pyobject) :=
  ("Variable", Variable_class) :: module_globals.

(** Sizes and strides of the existing dimensions among [old]. *)
Definition src_sizes (old : list (option (Z * Z))) : list Z :=
  flat_map (fun o => match o with Some p => [fst p] | None => [] end) old.

Definition src_strides (old : list (option (Z * Z))) : list Z :=
  flat_map (fun o => match o with Some p => [snd p] | None => [] end) old.

(** [oc] describes the same dimensions as [ot], laid out contiguously. *)
Fixpoint same_dims (ot oc : list (option (Z * Z))) : Prop :=
  match ot, oc with
  | [], [] => True
  | None :: ot', None :: oc' => same_dims ot' oc'
  | Some pt :: ot', Some pc :: oc' =>
      fst pc = fst pt /\ 0 <= fst pt /\ snd pc = numel (src_sizes ot') /\
      same_dims ot' oc'
  | _, _ => False
  end.

(** The [numel S] elements of [m] from position [k] on are what the view
    with sizes [S] and strides [T] reads from [d] at offset [o]. *)
Definition block (d m : list Q) (k : nat) (o : Z) (S T : list Z) : Prop :=
  firstn (Z.to_nat (numel S)) (skipn k m) = strided_read d S T o.

(** A reference whose strides match its sizes, which are not negative. *)
Definition well_shaped (r : tensor_ref) : Prop :=
  length (strides r) = length (sizes r) /\
  Forall (fun n => 0 <= n) (sizes r).

(** The warper value an object denotes in a store. *)
Definition warper_value (st : store) (self : warper_object) : HomographyWarper :=
  mkWarper (obj_height self) (obj_width self) (value_of st (obj_grid self)).

(** A rational in reduced form, as every stored element is. *)
Definition canonical (q : Q) : Prop := Qred q = q.

(** * Properties *)

(** ** Lists and flat indices *)

Lemma bind_ok_inv {A B : Type} (c : result A) (k : A -> result B) (b : B) :
  bind c k = Ok b -> exists a, c = Ok a /\ k a = Ok b.
Proof.
  destruct c as [a | e]; simpl; intros E; [ now exists a | discriminate ].
Qed.

Tactic Notation "inv_bind" hyp(E) "as" ident(a) ident(E1) ident(E2) :=
  apply bind_ok_inv in E; destruct E as (a & E1 & E2).

Lemma length_flat_map_const {A B : Type} (f : A -> list B) (l : list A) (k : nat) :
  (forall x, In x l -> length (f x) = k) ->
  length (flat_map f l) = (length l * k)%nat.
Proof.
  induction l as [| a l IH]; intros Hf; simpl; [ reflexivity | ].
  rewrite length_app, (Hf a) by now left.
  rewrite IH; [ reflexivity | ].
  intros x Hx. apply Hf. now right.
Qed.

Lemma length_concat_repeat {A : Type} (l : list A) (k : nat) :
  length (concat (repeat l k)) = (k * length l)%nat.
Proof.
  induction k as [| k IH]; simpl; [ reflexivity | ].
  now rewrite length_app, IH.
Qed.

Lemma nth_concat_repeat (l : list Q) (k i j : nat) :
  (i < k)%nat -> (j < length l)%nat ->
  nth (i * length l + j) (concat (repeat l k)) 0%Q = nth j l 0%Q.
Proof.
  revert i. induction k as [| k IH]; intros i Hi Hj; [ lia | ].
  simpl. destruct i as [| i].
  - simpl. now rewrite app_nth1.
  - rewrite app_nth2 by (simpl; lia).
    replace (S i * length l + j - length l)%nat with (i * length l + j)%nat
      by (simpl; lia).
    apply IH; lia.
Qed.

Lemma nth_flat_map_repeat (l : list Q) (m i j : nat) :
  (i < length l)%nat -> (j < m)%nat ->
  nth (i * m + j) (flat_map (fun v => repeat v m) l) 0%Q = nth i l 0%Q.
Proof.
  revert i. induction l as [| a l IH]; intros i Hi Hj; simpl in Hi; [ lia | ].
  simpl. destruct i as [| i].
  - simpl. rewrite app_nth1 by (rewrite repeat_length; lia).
    apply nth_repeat_lt; lia.
  - rewrite app_nth2 by (rewrite repeat_length; simpl; lia).
    rewrite repeat_length.
    replace (S i * m + j - m)%nat with (i * m + j)%nat by (simpl; lia).
    apply IH; lia.
Qed.

Lemma nth_map_seq (f : nat -> Q) (n i : nat) :
  (i < n)%nat -> nth i (map f (seq 0 n)) 0%Q = f i.
Proof.
  intros Hi.
  rewrite (nth_indep _ 0%Q (f 0%nat)) by (rewrite length_map, length_seq; lia).
  rewrite map_nth, seq_nth by lia. reflexivity.
Qed.

Lemma list_Z_eqb_refl (l : list Z) : list_Z_eqb l l = true.
Proof.
  unfold list_Z_eqb. rewrite Nat.eqb_refl. simpl.
  induction l as [| a l IH]; simpl; [ reflexivity | ].
  now rewrite Z.eqb_refl, IH.
Qed.

(** ** The coordinate grid *)

Lemma length_axis (normalized : bool) (n : Z) :
  length (axis normalized n) = Z.to_nat n.
Proof. unfold axis. now rewrite length_map, length_seq. Qed.

Lemma infer_size_flatten (m : Z) : infer_size [1; 2; -1] (2 * m) = Ok [1; 2; m].
Proof.
  unfold infer_size.
  change (existsb (fun d => d <? -1) [1; 2; -1]) with false.
  change (filter (fun d => negb (d =? -1)) [1; 2; -1]) with [1; 2].
  change (length (filter (fun d => d =? -1) [1; 2; -1])) with 1%nat.
  change (numel [1; 2]) with 2. cbv iota beta.
  change (0 <? 2) with true. change (2 =? 0) with false.
  replace (2 * m) with (m * 2) by lia.
  rewrite Z.mod_mul by lia. rewrite Z.eqb_refl, orb_true_r.
  cbv iota. unfold map.
  change (1 =? -1) with false. change (2 =? -1) with false.
  change (-1 =? -1) with true. cbv iota.
  now rewrite Z.div_mul by lia.
Qed.

(** The grid of a call with non-negative sizes: the x samples repeated for
    every row, followed by every y sample repeated along its row. *)
Lemma create_meshgrid_ok (H W : Z) (normalized : bool) :
  0 <= H -> 0 <= W ->
  create_meshgrid H W normalized =
  Ok (mkTensor [1; 2; H * W]
        (concat (repeat (axis normalized W) (Z.to_nat H)) ++
         flat_map (fun v => repeat v (Z.to_nat W)) (axis normalized H))
        cpu).
Proof.
  intros HH HW.
  assert (EH : (H <? 0) = false) by lia.
  assert (EW : (W <? 0) = false) by lia.
  set (xs := axis normalized W). set (ys := axis normalized H).
  set (A := flat_map (fun v => repeat v (Z.to_nat W)) ys).
  set (B := concat (repeat xs (Z.to_nat H))).
  assert (LA : length A = Z.to_nat (H * W)).
  { unfold A. rewrite (length_flat_map_const _ _ (Z.to_nat W)).
    - unfold ys. rewrite length_axis. now rewrite Z2Nat.inj_mul.
    - intros. apply repeat_length. }
  assert (LB : length B = Z.to_nat (H * W)).
  { unfold B. rewrite length_concat_repeat. unfold xs.
    rewrite length_axis. now rewrite Z2Nat.inj_mul. }
  assert (Est : create_meshgrid H W normalized =
                (flat <- view (mkTensor [2; H; W] (A ++ B ++ []) cpu) [1; 2; -1] ;;
                 index_dim1 flat [1; 0])).
  { unfold create_meshgrid, linspace. rewrite EH, EW.
    destruct normalized; cbn [bind meshgrid shape data device stack forallb];
      rewrite list_Z_eqb_refl; reflexivity. }
  rewrite Est. unfold view. cbn [shape data device].
  replace (numel [2; H; W]) with (2 * (H * W)) by (unfold numel, fold_right; ring).
  rewrite infer_size_flatten. cbn [bind].
  unfold index_dim1. cbn [shape data device].
  change (forallb (fun j => (0 <=? j) && (j <? 2)) [1; 0]) with true.
  cbv iota. change (Z.to_nat 1) with 1%nat. cbn [seq flat_map length].
  change (Z.of_nat 2) with 2.
  replace ((Z.of_nat 0 * 2 + 1) * (H * W)) with (H * W) by lia.
  replace ((Z.of_nat 0 * 2 + 0) * (H * W)) with 0 by lia.
  change (Z.to_nat 0) with 0%nat. cbn [skipn].
  rewrite <- LA at 2. rewrite skipn_app, skipn_all, Nat.sub_diag.
  cbn [skipn app]. rewrite !app_nil_r.
  rewrite <- LB at 1. rewrite firstn_all.
  rewrite <- LA. rewrite firstn_app, firstn_all, Nat.sub_diag.
  cbn [firstn]. now rewrite app_nil_r.
Qed.

Lemma linspace_value_unit (n : Z) (i : nat) :
  1 < n ->
  (linspace_value (-1) 1 n i == -1 + (2 * inject_Z (Z.of_nat i)) / inject_Z (n - 1))%Q.
Proof.
  intros Hn. unfold linspace_value.
  replace (n =? 1) with false by lia.
  rewrite Qred_correct.
  assert (Hd : ~ (inject_Z (n - 1) == 0)%Q).
  { unfold Qeq, inject_Z. simpl. lia. }
  field. exact Hd.
Qed.

(** Element [(0, 0, y * W + x)] of the grid is the [x]-th sample of the x
    axis and element [(0, 1, y * W + x)] the [y]-th sample of the y axis. *)
Lemma create_meshgrid_get (H W y x : Z) (normalized : bool) :
  0 <= y < H -> 0 <= x < W ->
  exists g, create_meshgrid H W normalized = Ok g /\
    shape g = [1; 2; H * W] /\
    get g [0; 0; y * W + x] = nth (Z.to_nat x) (axis normalized W) 0%Q /\
    get g [0; 1; y * W + x] = nth (Z.to_nat y) (axis normalized H) 0%Q.
Proof.
  intros Hy Hx. eexists. split; [ apply create_meshgrid_ok; lia | ].
  split; [ reflexivity | ].
  unfold get, flat_index. cbn [shape data combine fold_left fst snd].
  replace (((0 * 1 + 0) * 2 + 0) * (H * W) + (y * W + x)) with (y * W + x) by ring.
  replace (((0 * 1 + 0) * 2 + 1) * (H * W) + (y * W + x))
    with (H * W + (y * W + x)) by ring.
  assert (Ek : Z.to_nat (y * W + x) =
               (Z.to_nat y * Z.to_nat W + Z.to_nat x)%nat).
  { rewrite Z2Nat.inj_add, Z2Nat.inj_mul by nia. reflexivity. }
  assert (LB : length (concat (repeat (axis normalized W) (Z.to_nat H))) =
               Z.to_nat (H * W)).
  { rewrite length_concat_repeat, length_axis, Z2Nat.inj_mul by lia.
    reflexivity. }
  split.
  - rewrite app_nth1 by (rewrite LB; apply Z2Nat.inj_lt; nia).
    rewrite Ek. rewrite <- (length_axis normalized W) at 1.
    apply nth_concat_repeat; [ | rewrite length_axis ]; lia.
  - rewrite app_nth2 by (rewrite LB; apply Z2Nat.inj_le; nia).
    rewrite LB, Z2Nat.inj_add by nia.
    replace (Z.to_nat (H * W) + Z.to_nat (y * W + x) - Z.to_nat (H * W))%nat
      with (Z.to_nat (y * W + x)) by lia.
    rewrite Ek. apply nth_flat_map_repeat; [ rewrite length_axis | ]; lia.
Qed.

Lemma axis_normalized_nth (n i : Z) :
  0 <= i < n ->
  nth (Z.to_nat i) (axis true n) 0%Q = linspace_value (-1) 1 n (Z.to_nat i).
Proof.
  intros Hi. unfold axis. apply nth_map_seq. lia.
Qed.

(** C1. For [H, W >= 1] the normalized grid of [create_meshgrid] holds, at
    the flattened destination position [(y, x)], the pair (x_coord, y_coord)
    with the horizontal coordinate first: channel 0 is the [x]-th of [W]
    values evenly spaced from -1 to 1 and channel 1 the [y]-th of [H] such
    values, a single sample being -1.  The 1x1 grid is the coordinate
    (-1, -1) and the 2x3 grid is the cross product of the x values -1, 0, 1
    with the y values -1, 1. *)
Theorem create_meshgrid_normalized_xy :
  (forall H W y x : Z,
     1 <= H -> 1 <= W -> 0 <= y < H -> 0 <= x < W ->
     exists g, create_meshgrid H W true = Ok g /\
       shape g = [1; 2; H * W] /\
       (W = 1 -> get g [0; 0; y * W + x] = (-1)%Q) /\
       (1 < W -> (get g [0; 0; y * W + x]%Z ==
                  -1 + (2 * inject_Z x) / inject_Z (W - 1))%Q) /\
       (H = 1 -> get g [0; 1; y * W + x] = (-1)%Q) /\
       (1 < H -> (get g [0; 1; y * W + x]%Z ==
                  -1 + (2 * inject_Z y) / inject_Z (H - 1))%Q)) /\
  create_meshgrid 1 1 true = Ok (mkTensor [1; 2; 1] [-1; -1]%Q cpu) /\
  create_meshgrid 2 3 true =
    Ok (mkTensor [1; 2; 6]
          [-1; 0; 1; -1; 0; 1; -1; -1; -1; 1; 1; 1]%Q cpu).
Proof.
  split; [ | split; reflexivity ].
  intros H W y x HH HW Hy Hx.
  destruct (create_meshgrid_get H W y x true Hy Hx) as (g & Eg & Es & Gx & Gy).
  exists g. split; [ exact Eg | ]. split; [ exact Es | ].
  rewrite Gx, Gy, !axis_normalized_nth by lia.
  repeat split.
  - intros ->. reflexivity.
  - intros HW1. rewrite linspace_value_unit by lia.
    rewrite Z2Nat.id by lia. reflexivity.
  - intros ->. reflexivity.
  - intros HH1. rewrite linspace_value_unit by lia.
    rewrite Z2Nat.id by lia. reflexivity.
Qed.

Lemma create_meshgrid_normalized_xy_witness :
  exists g, create_meshgrid 2 3 true = Ok g /\
    shape g = [1; 2; 2 * 3] /\
    (get g [0; 0; 1 * 3 + 2]%Z == -1 + (2 * inject_Z 2) / inject_Z (3 - 1))%Q /\
    (get g [0; 1; 1 * 3 + 2]%Z == -1 + (2 * inject_Z 1) / inject_Z (2 - 1))%Q.
Proof.
  destruct (proj1 create_meshgrid_normalized_xy 2 3 1 2)
    as (g & Eg & Es & _ & Gx & _ & Gy); try lia.
  exists g. split; [ exact Eg | ]. split; [ exact Es | ].
  split; [ apply Gx | apply Gy ]; lia.
Defined.

(** ** Shapes *)

Lemma numel_nonneg (sh : list Z) : Forall (fun d => 0 <= d) sh -> 0 <= numel sh.
Proof.
  induction 1 as [| d sh Hd _ IH]; simpl; [ lia | ].
  apply Z.mul_nonneg_nonneg; assumption.
Qed.

Lemma strided_read_length (d : list Q) (sz : list Z) :
  forall (st : list Z) (off : Z),
    length st = length sz -> Forall (fun n => 0 <= n) sz ->
    length (strided_read d sz st off) = Z.to_nat (numel sz).
Proof.
  induction sz as [| n sz IH]; intros st off Hl Hs.
  - destruct st; [ reflexivity | discriminate ].
  - destruct st as [| s st]; [ discriminate | ].
    inversion Hs as [| ? ? Hn Hs']; subst.
    cbn [strided_read numel fold_right].
    rewrite (length_flat_map_const _ _ (Z.to_nat (numel sz))).
    + rewrite length_seq.
      rewrite Z2Nat.inj_mul by (auto using numel_nonneg). reflexivity.
    + intros i _. apply IH; [ simpl in Hl; lia | assumption ].
Qed.

(** *** [view] *)

Lemma no_invalid_dim (dims : list Z) :
  Forall (fun d => 0 <= d) dims -> existsb (fun d => d <? -1) dims = false.
Proof.
  induction 1 as [| d l H0 _ IH]; simpl; [ reflexivity | ].
  rewrite IH. replace (d <? -1) with false by lia. reflexivity.
Qed.

Lemma no_inferred_dim (dims : list Z) :
  Forall (fun d => 0 <= d) dims -> filter (fun d => d =? -1) dims = [].
Proof.
  induction 1 as [| d l H0 _ IH]; simpl; [ reflexivity | ].
  replace (d =? -1) with false by lia. exact IH.
Qed.

Lemma all_dims_known (dims : list Z) :
  Forall (fun d => 0 <= d) dims -> filter (fun d => negb (d =? -1)) dims = dims.
Proof.
  induction 1 as [| d l H0 _ IH]; simpl; [ reflexivity | ].
  replace (d =? -1) with false by lia. simpl. now rewrite IH.
Qed.

Lemma infer_size_exact (dims : list Z) :
  Forall (fun d => 0 <= d) dims -> infer_size dims (numel dims) = Ok dims.
Proof.
  intros Hd. unfold infer_size.
  rewrite no_invalid_dim, no_inferred_dim, all_dims_known by assumption.
  simpl. now rewrite Z.eqb_refl.
Qed.

Lemma infer_size_nonneg_inv (dims sh : list Z) (n : Z) :
  Forall (fun d => 0 <= d) dims ->
  infer_size dims n = Ok sh -> sh = dims /\ n = numel dims.
Proof.
  intros Hd. unfold infer_size.
  rewrite no_invalid_dim, no_inferred_dim, all_dims_known by assumption.
  cbn [length]. cbv iota.
  destruct (n =? numel dims) eqn:En; [ | discriminate ].
  intros E. injection E as <-. split; [ reflexivity | ].
  apply Z.eqb_eq. exact En.
Qed.

(** *** The template grid of a full-image warper *)

Lemma is_permutation_021 : is_permutation [0; 2; 1]%nat 3 = true.
Proof. reflexivity. Qed.

Lemma HomographyWarper_init_full (h w : Z) :
  0 <= h -> 0 <= w ->
  exists g,
    HomographyWarper_init h w None = Ok (mkWarper h w g) /\
    shape g = [1; h * w; 2] /\ device g = cpu.
Proof.
  intros Hh Hw. unfold HomographyWarper_init.
  rewrite create_meshgrid_ok by assumption. cbn [bind].
  unfold permute. cbn [shape data device length].
  rewrite is_permutation_021. cbn [bind map nth].
  eexists. split; [ reflexivity | ]. split; reflexivity.
Qed.

(** *** [expand] of the template grid to a batch *)

Lemma expand_batch (t : Tensor) (B m : Z) :
  shape t = [1; m; 2] -> 0 <= B -> 0 <= m ->
  exists t', expand t [B; m; 2] = Ok t' /\
             shape t' = [B; m; 2] /\ device t' = device t.
Proof.
  intros Es HB Hm. unfold expand. rewrite Es.
  cbn [length Nat.ltb Nat.leb Nat.sub repeat app contiguous_strides combine map
       expand_dims].
  change (2 =? -1) with false. change (2 =? 2) with true.
  cbn [orb bind].
  rewrite (Z.eqb_refl m), orb_true_r. cbn [bind].
  destruct ((B =? -1) || (B =? 1)) eqn:EB.
  - assert (B = 1) by lia. subst B.
    eexists. split; [ reflexivity | ]. split; reflexivity.
  - change (1 =? 1) with true. replace (0 <=? B) with true by lia.
    cbn [andb]. eexists. split; [ reflexivity | ]. split; reflexivity.
Qed.

(** *** The point transform *)

Lemma device_eqb_refl (d : Device) : device_eqb d d = true.
Proof. destruct d; simpl; [ reflexivity | apply Nat.eqb_refl ]. Qed.

Lemma device_eqb_eq (d1 d2 : Device) : device_eqb d1 d2 = true <-> d1 = d2.
Proof.
  split; [ | intros ->; apply device_eqb_refl ].
  destruct d1, d2; simpl; try discriminate; try reflexivity.
  intros E. apply Nat.eqb_eq in E. now subst.
Qed.

Lemma transform_points_shape (Hm p : Tensor) (B n : Z) :
  shape Hm = [B; 3; 3] -> shape p = [B; n; 2] -> device Hm = device p ->
  exists out, transform_points Hm p = Ok out /\
              shape out = [B; n; 2] /\ device out = device Hm.
Proof.
  intros EH Ep Ed. unfold transform_points. rewrite EH, Ep, Ed.
  change (3 =? 3) with true. cbn [andb negb].
  rewrite device_eqb_refl. cbn [negb].
  change (2 + 1 =? 3) with true. rewrite (Z.eqb_refl B). cbn [negb orb].
  unfold convert_points_to_homogeneous. rewrite Ep. cbn [rev app bind].
  unfold convert_points_from_homogeneous. cbn [shape rev app data device].
  change (3 <? 1) with false. cbv iota.
  eexists. split; [ reflexivity | ].
  split; [ | reflexivity ].
  cbn [shape]. destruct (B =? 1); reflexivity.
Qed.

(** *** [warp_grid] in full-image mode *)

Lemma size_0 (t : Tensor) (d : Z) (rest : list Z) :
  shape t = d :: rest -> size t 0 = Ok d.
Proof. intros E. unfold size. now rewrite E. Qed.

Lemma warp_grid_full_image (h w B : Z) (Hm : Tensor) :
  0 <= h -> 0 <= w -> 0 <= B -> shape Hm = [B; 3; 3] ->
  exists self g,
    HomographyWarper_init h w None = Ok self /\
    height self = h /\ width self = w /\
    warp_grid self Hm = Ok g /\
    shape g = [B; h; w; 2] /\ device g = device Hm.
Proof.
  intros Hh Hw HB EH.
  destruct (HomographyWarper_init_full h w Hh Hw) as (g0 & Ei & Es & _).
  exists (mkWarper h w g0).
  assert (Hhw : 0 <= h * w) by nia.
  destruct (expand_batch g0 B (h * w) Es HB Hhw) as (g1 & Ee & Es1 & _).
  destruct (transform_points_shape Hm (type_as (to g1 (device Hm)) Hm) B (h * w))
    as (flow & Et & Esf & Edf); [ exact EH | exact Es1 | reflexivity | ].
  exists (mkTensor [B; h; w; 2] (data flow) (device flow)).
  split; [ exact Ei | ]. split; [ reflexivity | ]. split; [ reflexivity | ].
  split; [ | split; [ reflexivity | exact Edf ] ].
  unfold warp_grid. rewrite (size_0 Hm B [3; 3] EH). cbn [bind grid height width].
  rewrite Es. change (last_two [1; h * w; 2]) with [h * w; 2].
  rewrite Ee. cbn [bind]. rewrite Et. cbn [bind].
  unfold view. rewrite Esf.
  replace (numel [B; h * w; 2]) with (numel [B; h; w; 2])
    by (unfold numel, fold_right; ring).
  rewrite infer_size_exact by (repeat constructor; lia).
  reflexivity.
Qed.

Lemma transform_points_device (Hm p out : Tensor) :
  transform_points Hm p = Ok out -> device out = device Hm.
Proof.
  unfold transform_points.
  destruct (shape Hm) as [| bh [| r [| c [| ? ?]]]]; try discriminate.
  destruct (shape p) as [| bp [| n [| d [| ? ?]]]]; try discriminate.
  destruct (negb ((r =? 3) && (c =? 3))); [ discriminate | ].
  destruct (negb (device_eqb (device Hm) (device p))); [ discriminate | ].
  destruct (negb (d + 1 =? 3)); [ discriminate | ].
  destruct (negb ((bh =? bp) || (bh =? 1) || (bp =? 1))); [ discriminate | ].
  intros E. inv_bind E as points_h Eh E.
  unfold convert_points_from_homogeneous in E.
  cbn [shape rev app data device] in E. change (3 <? 1) with false in E.
  cbv iota in E. injection E as <-. reflexivity.
Qed.

(** *** [warp_grid] of any warper *)

Lemma create_meshgrid_ok_inv (h w : Z) (normalized : bool) (g : Tensor) :
  create_meshgrid h w normalized = Ok g -> 0 <= h /\ 0 <= w.
Proof.
  unfold create_meshgrid, linspace. intros E.
  destruct (Z.ltb_spec w 0) as [Hw | Hw];
    [ destruct normalized; discriminate | ].
  destruct (Z.ltb_spec h 0) as [Hh | Hh];
    [ destruct normalized; discriminate | ].
  split; assumption.
Qed.

Lemma HomographyWarper_init_dims (h w : Z) (pts : option Tensor)
                                 (self : HomographyWarper) :
  HomographyWarper_init h w pts = Ok self ->
  (forall p, pts = Some p -> wf p) ->
  0 <= height self /\ 0 <= width self.
Proof.
  unfold HomographyWarper_init. intros E Hwf.
  destruct pts as [p |].
  - inv_bind E as s0 E0 E. inv_bind E as u Ea E. inv_bind E as s1 E1 E.
    injection E as <-.
    cbn [height width]. split; [ lia | ].
    destruct (Hwf p eq_refl) as [Hs _].
    unfold size in E1. destruct (nth_error (shape p) 1) as [d |] eqn:En;
      [ | discriminate ].
    injection E1 as <-. apply nth_error_In in En.
    rewrite Forall_forall in Hs. now apply Hs.
  - inv_bind E as g Eg E. inv_bind E as g' Ep E. injection E as <-.
    cbn [height width]. eapply create_meshgrid_ok_inv. exact Eg.
Qed.

Lemma warp_grid_shape (self : HomographyWarper) (Hm g : Tensor)
                      (B : Z) (rest : list Z) :
  warp_grid self Hm = Ok g ->
  shape Hm = B :: rest -> 0 <= B -> 0 <= height self -> 0 <= width self ->
  shape g = [B; height self; width self; 2] /\ device g = device Hm.
Proof.
  unfold warp_grid. intros E EH HB Hh Hw.
  rewrite (size_0 Hm B rest EH) in E. cbn [bind] in E.
  inv_bind E as g1 Ee E. inv_bind E as flow Et E.
  unfold view in E. inv_bind E as sh Ei E.
  injection E as <-. cbn [shape device].
  apply infer_size_nonneg_inv in Ei; [ | repeat constructor; lia ].
  destruct Ei as [-> _]. split; [ reflexivity | ].
  eapply transform_points_device. exact Et.
Qed.

(** *** [grid_sample] *)

Lemma grid_sample_bilinear_shape (input g : Tensor) (pm : string)
                                 (N C Hin Win Hout Wout : Z) :
  shape input = [N; C; Hin; Win] -> shape g = [N; Hout; Wout; 2] ->
  device input = device g -> pm = "zeros" \/ pm = "border" ->
  exists out, grid_sample input g "bilinear" pm = Ok out /\
              shape out = [N; C; Hout; Wout] /\ device out = device input.
Proof.
  intros Ei Eg Ed Hpm. unfold grid_sample. rewrite Ei, Eg, Ed.
  change (String.eqb "bilinear" "bilinear" || String.eqb "bilinear" "nearest")
    with true.
  assert (Epm : String.eqb pm "zeros" || String.eqb pm "border" = true)
    by (destruct Hpm; subst; reflexivity).
  rewrite Epm. cbn [negb]. rewrite device_eqb_refl. cbn [negb].
  rewrite Z.eqb_refl. change (2 =? 2) with true. cbn [andb].
  eexists. split; [ reflexivity | ]. split; reflexivity.
Qed.

(** ** [warp_grid] *)

(** In full-image mode [warp_grid] returns a (batch, height, width, 2)
    grid for every batch of homographies. *)
Lemma warp_grid_full_image_shape (h w B : Z) (self : HomographyWarper)
                                 (Hm : Tensor) :
  HomographyWarper_init h w None = Ok self ->
  shape Hm = [B; 3; 3] -> 0 <= B ->
  exists g, warp_grid self Hm = Ok g /\
            shape g = [B; height self; width self; 2].
Proof.
  intros Ei EH HB.
  assert (Hhw : 0 <= h /\ 0 <= w).
  { unfold HomographyWarper_init in Ei. inv_bind Ei as g0 Eg Ei.
    eapply create_meshgrid_ok_inv. exact Eg. }
  destruct Hhw as [Hh Hw].
  destruct (warp_grid_full_image h w B Hm Hh Hw HB EH)
    as (self' & g & Ei' & Eh & Ew & Eg & Es & _).
  rewrite Ei in Ei'. injection Ei' as <-.
  exists g. rewrite Eh, Ew. split; assumption.
Qed.

(** In explicit-points mode the template grid is the caller's 3xN tensor:
    [warp_grid] of a batch of one homography or more raises, whatever N. *)
Lemma warp_grid_explicit_points_raises (h w N B : Z) (points Hm : Tensor) :
  shape points = [3; N] -> 0 <= N -> shape Hm = [B; 3; 3] -> 1 <= B ->
  exists self, HomographyWarper_init h w (Some points) = Ok self /\
               height self = 1 /\ width self = N /\
               exists e, warp_grid self Hm = Err e.
Proof.
  intros Ep HN EH HB.
  exists (mkWarper 1 N points).
  split.
  { unfold HomographyWarper_init, size. rewrite Ep. reflexivity. }
  split; [ reflexivity | ]. split; [ reflexivity | ].
  destruct (warp_grid (mkWarper 1 N points) Hm) as [g | e] eqn:E;
    [ exfalso | now exists e ].
  unfold warp_grid in E. rewrite (size_0 Hm B [3; 3] EH) in E.
  cbn [bind grid height width] in E.
  inv_bind E as g1 Ee E. inv_bind E as flow Et E.
  assert (Es1 : shape g1 = [B; 3; N]).
  { unfold expand in Ee. rewrite Ep in Ee.
    change (last_two [3; N]) with [3; N] in Ee.
    cbn [length Nat.ltb Nat.leb Nat.sub repeat app contiguous_strides combine
         map expand_dims] in Ee.
    rewrite (Z.eqb_refl N), orb_true_r in Ee. cbn [bind] in Ee.
    change ((3 =? -1) || (3 =? 3)) with true in Ee. cbv iota in Ee.
    cbn [bind] in Ee.
    replace (B <? 0) with false in Ee by lia.
    cbn [bind map fst] in Ee. injection Ee as <-. reflexivity. }
  assert (Esf : shape flow = [B; 3; 2] /\ N = 2).
  { unfold transform_points in Et. rewrite EH in Et.
    unfold type_as, to in Et. cbn [shape device data] in Et.
    rewrite Es1 in Et. change (3 =? 3) with true in Et.
    cbn [andb negb] in Et. rewrite device_eqb_refl in Et. cbn [negb] in Et.
    destruct (N + 1 =? 3) eqn:EN; [ | discriminate ].
    cbn [negb] in Et.
    rewrite (Z.eqb_refl B) in Et. cbn [orb negb] in Et.
    inv_bind Et as points_h Eh Et.
    unfold convert_points_from_homogeneous in Et.
    cbn [shape rev app data device] in Et. change (3 <? 1) with false in Et.
    cbv iota in Et. injection Et as <-. cbn [shape].
    split; [ destruct (B =? 1); reflexivity | lia ]. }
  destruct Esf as [Esf ->].
  unfold view in E. inv_bind E as sh Ei E. rewrite Esf in Ei.
  apply infer_size_nonneg_inv in Ei; [ | repeat constructor; lia ].
  destruct Ei as [_ Ei]. unfold numel, fold_right in Ei. lia.
Qed.

(** C2. [warp_grid] does not return a (batch, height, width, 2) array for a
    warper in explicit-points mode: with a 3x4 point set the point transform
    rejects the expanded (1, 3, 4) grid, and with a 3x2 point set the final
    [view] of the (1, 3, 2) result as (1, 1, 2, 2) raises.  (In full-image
    mode the shape is as claimed, see [warp_grid_full_image_shape].) *)
Theorem warp_grid_explicit_points_defect :
  (exists self,
     HomographyWarper_init 1 4
       (Some (mkTensor [3; 4] [-1; 0; 1; 0; -1; -1; 1; 1; 1; 1; 1; 1]%Q cpu))
     = Ok self /\
     height self = 1 /\ width self = 4 /\
     warp_grid self (eye3 1 cpu) =
       Err (RuntimeError "transform_points: size mismatch in the matrix product")) /\
  (exists self,
     HomographyWarper_init 1 2
       (Some (mkTensor [3; 2] [-1; 1; -1; 1; 1; 1]%Q cpu)) = Ok self /\
     height self = 1 /\ width self = 2 /\
     warp_grid self (eye3 1 cpu) =
       Err (RuntimeError "shape is invalid for input size")).
Proof.
  split; eexists; (split; [ reflexivity | ]); repeat split; reflexivity.
Qed.

(** ** [forward] *)

Lemma forward_same_device (self : HomographyWarper) (patch Hm : Tensor)
                          (pm : string) :
  device patch = device Hm ->
  forward self patch Hm pm =
  (g <- warp_grid self Hm ;; grid_sample patch g "bilinear" pm).
Proof.
  intros Ed. unfold forward. rewrite Ed, device_eqb_refl. reflexivity.
Qed.

(** C3. [forward] does not return an image for every warper.  On operands
    that live on the same device it is, for every warper, the bilinear
    resampling, with the caller's padding mode, of the patch at the grid
    [warp_grid] returns.  With the warper in explicit-points mode that call
    raises: on a 3x4 point set the point transform rejects the expanded
    grid, on a 3x2 point set the final [view] of [warp_grid] raises, and for
    every 3xN point set and every batch of at least one homography [forward]
    returns nothing.  In full-image mode [forward] returns an image of shape
    (N, C, height, width) with the warper's height and width, not the
    patch's: the 3x5 warper turns the 2x2 image into a 3x5 one. *)
Theorem forward_explicit_points_defect :
  (exists self,
     HomographyWarper_init 1 4
       (Some (mkTensor [3; 4] [-1; 0; 1; 0; -1; -1; 1; 1; 1; 1; 1; 1]%Q cpu))
     = Ok self /\
     height self = 1 /\ width self = 4 /\
     forward self image22 (eye3 1 cpu) "zeros" =
       Err (RuntimeError "transform_points: size mismatch in the matrix product")) /\
  (exists self,
     HomographyWarper_init 1 2
       (Some (mkTensor [3; 2] [-1; 1; -1; 1; 1; 1]%Q cpu)) = Ok self /\
     height self = 1 /\ width self = 2 /\
     forward self image22 (eye3 1 cpu) "zeros" =
       Err (RuntimeError "shape is invalid for input size")) /\
  (forall (h w n B : Z) (points patch Hm : Tensor) (pm : string),
     shape points = [3; n] -> 0 <= n -> shape Hm = [B; 3; 3] -> 1 <= B ->
     exists self e,
       HomographyWarper_init h w (Some points) = Ok self /\
       height self = 1 /\ width self = n /\
       forward self patch Hm pm = Err e) /\
  (forall (self : HomographyWarper) (patch Hm : Tensor) (pm : string),
     device patch = device Hm ->
     forward self patch Hm pm =
     (g <- warp_grid self Hm ;; grid_sample patch g "bilinear" pm)) /\
  (forall (h w N C Hp Wp : Z) (patch Hm : Tensor) (pm : string),
     0 <= h -> 0 <= w ->
     shape patch = [N; C; Hp; Wp] -> shape Hm = [N; 3; 3] -> 0 <= N ->
     device patch = device Hm -> pm = "zeros" \/ pm = "border" ->
     exists self g out,
       HomographyWarper_init h w None = Ok self /\
       height self = h /\ width self = w /\
       warp_grid self Hm = Ok g /\
       grid_sample patch g "bilinear" pm = Ok out /\
       forward self patch Hm pm = Ok out /\
       shape out = [N; C; h; w]) /\
  (exists self out,
     HomographyWarper_init 3 5 None = Ok self /\
     forward self image22 (eye3 1 cpu) "border" = Ok out /\
     shape image22 = [1; 1; 2; 2] /\ shape out = [1; 1; 3; 5]).
Proof.
  split; [ | split; [ | split; [ | split; [ | split ] ] ] ].
  - eexists. split; [ reflexivity | ]. repeat split; reflexivity.
  - eexists. split; [ reflexivity | ]. repeat split; reflexivity.
  - intros h w n B points patch Hm pm Ep Hn EH HB.
    destruct (warp_grid_explicit_points_raises h w n B points Hm Ep Hn EH HB)
      as (self & Ei & Eh & Ew & e & Ee).
    exists self. unfold forward.
    destruct (negb (device_eqb (device Hm) (device patch))).
    + eexists. repeat split; assumption.
    + exists e. repeat split; try assumption. now rewrite Ee.
  - intros self patch Hm pm Ed. now apply forward_same_device.
  - intros h w N C Hp Wp patch Hm pm Hh Hw Ep EH HN Ed Hpm.
    destruct (warp_grid_full_image h w N Hm Hh Hw HN EH)
      as (self & g & Ei & Eh & Ew & Eg & Es & Edg).
    destruct (grid_sample_bilinear_shape patch g pm N C Hp Wp h w Ep Es)
      as (out & Eo & Eso & _); [ congruence | exact Hpm | ].
    exists self, g, out. repeat split; try assumption.
    rewrite forward_same_device by exact Ed. rewrite Eg. exact Eo.
  - eexists. eexists. split; [ reflexivity | ].
    split; [ reflexivity | ]. split; reflexivity.
Qed.

(** ** The device check of [forward] *)

Lemma no_TypeError_ok {A : Type} (a : A) : no_TypeError (Ok a).
Proof. intros e E. discriminate E. Qed.

Lemma no_TypeError_err {A : Type} (e : exn) :
  is_TypeError e = false -> no_TypeError (@Err A e).
Proof. intros He e' E. injection E as <-. exact He. Qed.

Lemma no_TypeError_bind {A B : Type} (c : result A) (k : A -> result B) :
  no_TypeError c -> (forall a, no_TypeError (k a)) -> no_TypeError (bind c k).
Proof.
  intros Hc Hk e E. destruct c as [a | e0]; simpl in E.
  - exact (Hk a e E).
  - injection E as <-. now apply Hc.
Qed.

Ltac no_type_error :=
  repeat first
    [ apply no_TypeError_ok
    | apply no_TypeError_err; reflexivity
    | apply no_TypeError_bind; [ | intros ? ]
    | match goal with
      | |- no_TypeError (if ?b then _ else _) => destruct b
      | |- no_TypeError (match ?x with _ => _ end) => destruct x
      end ].

Lemma expand_dims_no_TypeError (old : list (option (Z * Z))) :
  forall new, no_TypeError (expand_dims old new).
Proof.
  induction old as [| o old IH]; intros new; destruct new as [| n new];
    cbn [expand_dims]; no_type_error.
  apply IH.
Qed.

Lemma warp_grid_no_TypeError (self : HomographyWarper) (Hm : Tensor) :
  no_TypeError (warp_grid self Hm).
Proof.
  unfold warp_grid, size, expand, transform_points, view, infer_size,
    convert_points_to_homogeneous, convert_points_from_homogeneous.
  cbv zeta. no_type_error.
  apply expand_dims_no_TypeError.
Qed.

Lemma grid_sample_no_TypeError (input g : Tensor) (mode pm : string) :
  no_TypeError (grid_sample input g mode pm).
Proof. unfold grid_sample. no_type_error. Qed.

Lemma string_append_assoc (a b c : string) :
  ((a ++ b) ++ c)%string = (a ++ (b ++ c))%string.
Proof.
  induction a as [| ch a IH]; simpl; [ reflexivity | now rewrite IH ].
Qed.

(** The message of the device check names both devices, the patch's first. *)
Lemma device_mismatch_message (dp dh : string) :
  py_format device_mismatch_template [dp; dh] =
  ("Patch and homography must be on the same device.                             Got patch.device: "
   ++ dp ++ " dst_H_src.device: " ++ dh ++ ".")%string.
Proof. reflexivity. Qed.

(** C6. [forward] raises the device-mismatch error, a [TypeError] whose
    message names the device of the patch and the device of the homography,
    whenever the two operands are on different devices, and raises no such
    error when they are on the same device. *)
Theorem forward_device_check :
  forall (self : HomographyWarper) (patch Hm : Tensor) (pm : string),
    (device Hm <> device patch ->
     exists msg, forward self patch Hm pm = Err (TypeError msg) /\
                 contains msg (device_str (device patch)) /\
                 contains msg (device_str (device Hm))) /\
    (device Hm = device patch ->
     forall msg, forward self patch Hm pm <> Err (TypeError msg)).
Proof.
  intros self patch Hm pm. split.
  - intros Hne.
    assert (Eb : device_eqb (device Hm) (device patch) = false).
    { destruct (device_eqb (device Hm) (device patch)) eqn:Eb; [ | reflexivity ].
      apply device_eqb_eq in Eb. contradiction. }
    unfold forward. rewrite Eb. cbn [negb].
    eexists. split; [ reflexivity | ].
    rewrite device_mismatch_message. split.
    + eexists. eexists. reflexivity.
    + exists ("Patch and homography must be on the same device.                             Got patch.device: "
              ++ device_str (device patch) ++ " dst_H_src.device: ")%string.
      exists "."%string.
      rewrite !string_append_assoc. reflexivity.
  - intros Ed msg E.
    assert (Hn : no_TypeError (forward self patch Hm pm)).
    { unfold forward. rewrite Ed, device_eqb_refl. cbn [negb].
      apply no_TypeError_bind; [ apply warp_grid_no_TypeError | ].
      intros g. apply grid_sample_no_TypeError. }
    specialize (Hn _ E). discriminate Hn.
Qed.

Lemma forward_device_check_witness :
  (exists msg,
     forward warper22 image22 (eye3 1 (cuda 1)) "zeros" = Err (TypeError msg) /\
     contains msg (device_str (device image22)) /\
     contains msg (device_str (device (eye3 1 (cuda 1))))) /\
  (forall msg,
     forward warper22 image22 (eye3 1 cpu) "zeros" <> Err (TypeError msg)).
Proof.
  split.
  - apply (proj1 (forward_device_check warper22 image22 (eye3 1 (cuda 1)) "zeros")).
    simpl. discriminate.
  - apply (proj2 (forward_device_check warper22 image22 (eye3 1 cpu) "zeros")).
    reflexivity.
Defined.

(** ** The functional entry point *)

(** C7. [homography_warp] returns exactly what constructing a
    [HomographyWarper] with the height and width of [dsize] and the given
    points, and calling its [forward] on the same patch, homographies and
    padding mode, returns (be it a tensor or an exception). *)
Theorem homography_warp_is_forward_of_new_warper :
  forall (patch dst_H_src : Tensor) (height width : Z)
         (points : option Tensor) (padding_mode : string),
    homography_warp patch dst_H_src (height, width) points padding_mode =
    homography_warp_spec patch dst_H_src height width points padding_mode.
Proof.
  intros patch dst_H_src h w points pm.
  unfold homography_warp, homography_warp_spec, module_call.
  destruct (HomographyWarper_init h w points) as [warper | e]; reflexivity.
Qed.

(** ** Sizes that are not positive *)

Lemma concat_repeat_nil {A : Type} (k : nat) : concat (repeat (@nil A) k) = [].
Proof. induction k as [| k IH]; simpl; [ reflexivity | exact IH ]. Qed.

Lemma flat_map_repeat_0 {A : Type} (l : list A) :
  flat_map (fun v => repeat v 0) l = [].
Proof. induction l as [| a l IH]; simpl; [ reflexivity | exact IH ]. Qed.

Lemma create_meshgrid_negative (h w : Z) (normalized : bool) :
  h < 0 \/ w < 0 ->
  create_meshgrid h w normalized =
  Err (RuntimeError "number of steps must be non-negative").
Proof.
  intros Hneg. unfold create_meshgrid, linspace.
  destruct (Z.ltb_spec w 0) as [Hw | Hw]; [ destruct normalized; reflexivity | ].
  destruct (Z.ltb_spec h 0) as [Hh | Hh]; [ destruct normalized; reflexivity | ].
  lia.
Qed.

Lemma create_meshgrid_empty (h w : Z) (normalized : bool) :
  0 <= h -> 0 <= w -> h = 0 \/ w = 0 ->
  create_meshgrid h w normalized = Ok (mkTensor [1; 2; 0] [] cpu).
Proof.
  intros Hh Hw H0. rewrite create_meshgrid_ok by assumption.
  destruct H0 as [-> | ->].
  - reflexivity.
  - rewrite Z.mul_0_r. unfold axis at 1. cbn [Z.to_nat seq map].
    now rewrite concat_repeat_nil, flat_map_repeat_0.
Qed.

(** C8, as the code has it.  [create_meshgrid] has no check of its own on
    the sizes.  A negative height or width makes [linspace] raise, so no
    grid is produced; a height or width of zero (the other size being
    non-negative) is accepted and gives the empty grid of shape (1, 2, 0). *)
Theorem create_meshgrid_nonpositive :
  forall (h w : Z) (normalized : bool),
    (h < 0 \/ w < 0 ->
     exists msg, create_meshgrid h w normalized = Err (RuntimeError msg)) /\
    (0 <= h -> 0 <= w -> h = 0 \/ w = 0 ->
     create_meshgrid h w normalized = Ok (mkTensor [1; 2; 0] [] cpu)).
Proof.
  intros h w normalized. split.
  - intros Hneg. eexists. now apply create_meshgrid_negative.
  - apply create_meshgrid_empty.
Qed.

Lemma create_meshgrid_nonpositive_witness :
  (exists msg, create_meshgrid (-1) 3 true = Err (RuntimeError msg)) /\
  create_meshgrid 0 3 true = Ok (mkTensor [1; 2; 0] [] cpu).
Proof.
  split.
  - apply (proj1 (create_meshgrid_nonpositive (-1) 3 true)). left. lia.
  - apply (proj2 (create_meshgrid_nonpositive 0 3 true)); [ lia | lia | ].
    left. reflexivity.
Defined.

(** C8, as stated, fails: a height of zero is not rejected. *)
Lemma create_meshgrid_zero_height_accepted :
  0 <= 0 /\ create_meshgrid 0 3 true = Ok (mkTensor [1; 2; 0] [] cpu) /\
  ~ (exists e, create_meshgrid 0 3 true = Err e).
Proof.
  split; [ lia | ]. split; [ reflexivity | ].
  intros [e E]. discriminate E.
Qed.

(** ** What [warp_grid] leaves unchanged *)

Lemma preserves_ret {A : Type} (a : A) : preserves (ret a).
Proof. intros s. split; [ reflexivity | exists []; now rewrite app_nil_r ]. Qed.

Lemma preserves_lift {A : Type} (r : result A) : preserves (lift r).
Proof. intros s. split; [ reflexivity | exists []; now rewrite app_nil_r ]. Qed.

Lemma preserves_bind {A B : Type} (c : M A) (k : A -> M B) :
  preserves c -> (forall a, preserves (k a)) -> preserves (bindM c k).
Proof.
  intros Hc Hk s. unfold bindM. specialize (Hc s).
  destruct (c s) as [[a | e] s1]; cbn [fst snd] in *.
  - destruct Hc as [Ho [ext1 Es]]. specialize (Hk a s1).
    destruct Hk as [Ho2 [ext2 Es2]]. split; [ congruence | ].
    exists (ext1 ++ ext2). rewrite Es2, Es. now rewrite app_assoc.
  - exact Hc.
Qed.

Lemma preserves_self_height : preserves self_height.
Proof. intros s. split; [ reflexivity | exists []; now rewrite app_nil_r ]. Qed.

Lemma preserves_self_width : preserves self_width.
Proof. intros s. split; [ reflexivity | exists []; now rewrite app_nil_r ]. Qed.

Lemma preserves_self_grid : preserves self_grid.
Proof. intros s. split; [ reflexivity | exists []; now rewrite app_nil_r ]. Qed.

Lemma preserves_to_ref (r : tensor_ref) (d : Device) : preserves (to_ref r d).
Proof.
  intros s. unfold to_ref, alloc. destruct (device_eqb (ref_device r) d).
  - split; [ reflexivity | exists []; now rewrite app_nil_r ].
  - cbn [fst snd]. split; [ reflexivity | eexists; reflexivity ].
Qed.

Lemma preserves_transform_points_ref (Hm p : tensor_ref) :
  preserves (transform_points_ref Hm p).
Proof.
  intros s. unfold transform_points_ref, alloc.
  destruct (transform_points _ _) as [t | e]; cbn [fst snd].
  - split; [ reflexivity | eexists; reflexivity ].
  - split; [ reflexivity | exists []; now rewrite app_nil_r ].
Qed.

Create HintDb frame.

#[local] Hint Resolve preserves_ret preserves_lift preserves_self_height
  preserves_self_width preserves_self_grid preserves_to_ref
  preserves_transform_points_ref : frame.

Lemma preserves_warp_grid_obj (Hm : tensor_ref) : preserves (warp_grid_obj Hm).
Proof.
  unfold warp_grid_obj, type_as_ref.
  repeat (apply preserves_bind; [ auto with frame | intros ? ]).
  auto with frame.
Qed.

(** A storage that exists keeps its contents when storages are added. *)
Lemma value_of_extend (st ext : store) (r : tensor_ref) :
  (storage r < length st)%nat -> value_of (st ++ ext) r = value_of st r.
Proof.
  intros Hr. unfold value_of. now rewrite app_nth1.
Qed.

(** C9. [warp_grid] assigns no attribute of the warper, whether it returns
    or raises: height, width and the reference to the template grid are
    those of before; it writes to no existing storage (the store only gains
    the storages of the new tensors), so the template grid denotes the same
    tensor after the call. *)
Theorem warp_grid_leaves_warper_unchanged :
  forall (self : warper_object) (st : store) (Hm : tensor_ref),
    let after := snd (warp_grid_obj Hm (self, st)) in
    fst after = self /\
    (exists ext, snd after = st ++ ext) /\
    ((storage (obj_grid self) < length st)%nat ->
     value_of (snd after) (obj_grid (fst after)) = value_of st (obj_grid self)).
Proof.
  intros self st Hm after.
  destruct (preserves_warp_grid_obj Hm (self, st)) as [Ho [ext Es]].
  fold after in Ho, Es. cbn [fst snd] in Ho, Es.
  split; [ exact Ho | ]. split; [ now exists ext | ].
  intros Hr. rewrite Ho, Es. now apply value_of_extend.
Qed.

Lemma object23_init :
  HomographyWarper_init_obj 2 3 None [data (eye3 2 cpu)] = Ok (object23, store23).
Proof. reflexivity. Qed.

(** On this state the object-level [warp_grid] returns a reference to the
    tensor the value-level [warp_grid] computes. *)
Lemma warp_grid_obj_agrees_example :
  exists r st',
    warp_grid_obj homographies_ref (object23, store23) = (Ok r, (object23, st')) /\
    exists self, HomographyWarper_init 2 3 None = Ok self /\
                 warp_grid self (eye3 2 cpu) = Ok (value_of st' r).
Proof.
  eexists. eexists. split; [ reflexivity | ].
  eexists. split; reflexivity.
Qed.

Lemma warp_grid_leaves_warper_unchanged_witness :
  fst (snd (warp_grid_obj homographies_ref (object23, store23))) = object23 /\
  (exists ext,
     snd (snd (warp_grid_obj homographies_ref (object23, store23))) =
     store23 ++ ext) /\
  value_of (snd (snd (warp_grid_obj homographies_ref (object23, store23))))
           (obj_grid (fst (snd (warp_grid_obj homographies_ref
                                  (object23, store23))))) =
  value_of store23 (obj_grid object23).
Proof.
  destruct (warp_grid_leaves_warper_unchanged object23 store23 homographies_ref)
    as (Hself & Hstore & Hgrid).
  split; [ exact Hself | ]. split; [ exact Hstore | ].
  apply Hgrid. simpl. lia.
Defined.

(** ** [crop_and_warp] *)

(** The module neither imports nor defines [Variable]. *)
Lemma Variable_unbound :
  lookup_name module_globals "Variable" = Err (NameError "Variable").
Proof. reflexivity. Qed.

Lemma py_truediv_ok (a b : Z) :
  b <> 0 -> py_truediv a b = Ok (Qred (inject_Z a / inject_Z b)).
Proof. intros Hb. unfold py_truediv. now replace (b =? 0) with false by lia. Qed.

(** The coefficients computed from a region of interest: with the inclusive
    pixel bounds [start] and [end - 1] normalized by [2 * coord / dimension - 1],
    [b] is the midpoint of the normalized interval and [a] its half-width. *)
Lemma roi_coefficients_midpoint_halfwidth (W H sy ey sx ex : Z) :
  W <> 0 -> H <> 0 ->
  exists a_x a_y b_x b_y,
    roi_coefficients W H [sy; ey; sx; ex] = Ok (a_x, a_y, b_x, b_y) /\
    let nsx := (inject_Z (2 * sx) / inject_Z W - 1)%Q in
    let nex := (inject_Z (2 * (ex - 1)) / inject_Z W - 1)%Q in
    let nsy := (inject_Z (2 * sy) / inject_Z H - 1)%Q in
    let ney := (inject_Z (2 * (ey - 1)) / inject_Z H - 1)%Q in
    (b_x == (nsx + nex) / 2)%Q /\ (a_x == (nex - nsx) / 2)%Q /\
    (b_y == (nsy + ney) / 2)%Q /\ (a_y == (ney - nsy) / 2)%Q.
Proof.
  intros HW HH. unfold roi_coefficients. cbn [py_index nth_error bind].
  rewrite !py_truediv_ok by assumption. cbn [bind].
  do 4 eexists. split; [ reflexivity | ].
  assert (HWq : ~ (inject_Z W == 0)%Q) by (unfold Qeq, inject_Z; simpl; lia).
  assert (HHq : ~ (inject_Z H == 0)%Q) by (unfold Qeq, inject_Z; simpl; lia).
  cbv zeta. rewrite !Qred_correct.
  repeat split; field; assumption.
Qed.

Lemma inject_Z_sub (a b : Z) : (inject_Z (a - b) == inject_Z a - inject_Z b)%Q.
Proof.
  unfold Z.sub. rewrite inject_Z_plus, inject_Z_opp. reflexivity.
Qed.

(** With the full image as region of interest the remap is not the
    identity: [a = 1 - 1/dimension] and [b = -1/dimension]. *)
Lemma roi_coefficients_full_image (W H : Z) :
  1 <= W -> 1 <= H ->
  exists a_x a_y b_x b_y,
    roi_coefficients W H [0; H; 0; W] = Ok (a_x, a_y, b_x, b_y) /\
    (a_x == 1 - 1 / inject_Z W)%Q /\ (a_y == 1 - 1 / inject_Z H)%Q /\
    (b_x == - (1 / inject_Z W))%Q /\ (b_y == - (1 / inject_Z H))%Q /\
    ~ (a_x == 1)%Q /\ ~ (a_y == 1)%Q /\ ~ (b_x == 0)%Q /\ ~ (b_y == 0)%Q.
Proof.
  intros HW HH.
  destruct (roi_coefficients_midpoint_halfwidth W H 0 H 0 W)
    as (a_x & a_y & b_x & b_y & E & Hbx & Hax & Hby & Hay); try lia.
  cbv zeta in *.
  assert (HWq : ~ (inject_Z W == 0)%Q) by (unfold Qeq, inject_Z; simpl; lia).
  assert (HHq : ~ (inject_Z H == 0)%Q) by (unfold Qeq, inject_Z; simpl; lia).
  assert (Ax : (a_x == 1 - 1 / inject_Z W)%Q).
  { rewrite Hax. rewrite !inject_Z_mult, inject_Z_sub. field. exact HWq. }
  assert (Ay : (a_y == 1 - 1 / inject_Z H)%Q).
  { rewrite Hay. rewrite !inject_Z_mult, inject_Z_sub. field. exact HHq. }
  assert (Bx : (b_x == - (1 / inject_Z W))%Q).
  { rewrite Hbx. rewrite !inject_Z_mult, inject_Z_sub. field. exact HWq. }
  assert (By : (b_y == - (1 / inject_Z H))%Q).
  { rewrite Hby. rewrite !inject_Z_mult, inject_Z_sub. field. exact HHq. }
  exists a_x, a_y, b_x, b_y.
  split; [ exact E | ].
  assert (PW : (0 < 1 / inject_Z W)%Q).
  { apply Qlt_shift_div_l; [ unfold Qlt, inject_Z; simpl; lia | ].
    rewrite Qmult_0_l. reflexivity. }
  assert (PH : (0 < 1 / inject_Z H)%Q).
  { apply Qlt_shift_div_l; [ unfold Qlt, inject_Z; simpl; lia | ].
    rewrite Qmult_0_l. reflexivity. }
  repeat split; try assumption.
  - rewrite Ax. intros E1.
    assert (E2 : (1 / inject_Z W == 0)%Q).
    { rewrite <- (Qplus_0_l (1 / inject_Z W)).
      setoid_replace 0%Q with (1 - 1 / inject_Z W - 1)%Q at 1
        by (rewrite E1; ring). ring. }
    rewrite E2 in PW. discriminate PW.
  - rewrite Ay. intros E1.
    assert (E2 : (1 / inject_Z H == 0)%Q).
    { rewrite <- (Qplus_0_l (1 / inject_Z H)).
      setoid_replace 0%Q with (1 - 1 / inject_Z H - 1)%Q at 1
        by (rewrite E1; ring). ring. }
    rewrite E2 in PH. discriminate PH.
  - rewrite Bx. intros E1.
    assert (E2 : (1 / inject_Z W == 0)%Q).
    { setoid_replace (1 / inject_Z W)%Q with (- - (1 / inject_Z W))%Q by ring.
      rewrite E1. reflexivity. }
    rewrite E2 in PW. discriminate PW.
  - rewrite By. intros E1.
    assert (E2 : (1 / inject_Z H == 0)%Q).
    { setoid_replace (1 / inject_Z H)%Q with (- - (1 / inject_Z H))%Q by ring.
      rewrite E1. reflexivity. }
    rewrite E2 in PH. discriminate PH.
Qed.

(** Where [Variable] resolves to the tensor wrapper, the last lines of
    [crop_and_warp] remap the grid and resample the image. *)
Lemma remap_and_resample_resolved (ns : list (string * pyobject))
    (g image : Tensor) (a_x a_y b_x b_y : Q) (pm : string) :
  lookup_name ns "Variable" = Ok Variable_class ->
  remap_and_resample ns g image a_x a_y b_x b_y pm =
  (let a := FloatTensor [a_x; a_y] in
   let b := FloatTensor [b_x; b_y] in
   let a := if is_cuda_device (device g) then to_cuda a else a in
   let b := if is_cuda_device (device g) then to_cuda b else b in
   ga <- tensor_mul g a ;;
   g' <- tensor_add ga b ;;
   grid_sample image g' "bilinear" pm).
Proof.
  intros E. unfold remap_and_resample. rewrite E. reflexivity.
Qed.

(** In the module itself they raise. *)
Lemma remap_and_resample_unbound (g image : Tensor) (a_x a_y b_x b_y : Q)
                                 (pm : string) :
  remap_and_resample module_globals g image a_x a_y b_x b_y pm =
  Err (NameError "Variable").
Proof. reflexivity. Qed.

(** C4. [crop_and_warp] does not remap and resample: on a 2x2 warper, the
    identity homography, a 2x2 image and the region of interest (0, 2, 0, 2)
    it raises [NameError] for [Variable], which the module never imports.
    With [Variable] imported, the same call resamples the image at
    [grid * a + b] with [a = (1/2, 1/2)], [b = (-1/2, -1/2)]. *)
Theorem crop_and_warp_raises_on_example :
  crop_and_warp warper22 (eye3 1 cpu) image22 [0; 2; 0; 2] "zeros" =
    Err (NameError "Variable") /\
  roi_coefficients 2 2 [0; 2; 0; 2] = Ok (1 # 2, 1 # 2, -1 # 2, -1 # 2)%Q /\
  crop_and_warp_in module_globals_with_Variable
    warper22 (eye3 1 cpu) image22 [0; 2; 0; 2] "zeros" =
    Ok (mkTensor [1; 1; 2; 2] [1; 3 # 2; 2; 5 # 2]%Q cpu).
Proof. repeat split; reflexivity. Qed.




(** *** What the remap computes *)

Lemma nth_map_combine_seq (f : nat * Q -> Q) (l : list Q) (i : nat) :
  (i < length l)%nat ->
  nth i (map f (combine (seq 0 (length l)) l)) 0%Q = f (i, nth i l 0%Q).
Proof.
  intros Hi.
  rewrite (nth_indep _ 0%Q (f (0%nat, 0%Q)))
    by (rewrite length_map, length_combine, length_seq; lia).
  rewrite map_nth, combine_nth by (now rewrite length_seq).
  now rewrite seq_nth by lia.
Qed.

Lemma broadcast_last_pair (op : Q -> Q -> Q) (t v : Tensor) (x y : Q)
                          (lead : list Z) :
  shape t = lead ++ [2] -> shape v = [2] -> data v = [x; y] ->
  device t = device v ->
  exists out, broadcast_last op t v = Ok out /\
    shape out = shape t /\ device out = device t /\
    length (data out) = length (data t) /\
    forall i, (i < length (data t))%nat ->
      nth i (data out) 0%Q =
      Qred (op (nth i (data t) 0%Q) (nth (i mod 2) [x; y] 0%Q)).
Proof.
  intros Es Ev Ed Edev. unfold broadcast_last. rewrite Ev, Ed, Edev, Es.
  rewrite device_eqb_refl, last_last. cbn [negb].
  change ((0 <? 2) && (2 =? 2)) with true. cbv iota.
  eexists. split; [ reflexivity | ]. cbn [shape device data].
  split; [ reflexivity | ]. split; [ reflexivity | ].
  split; [ now rewrite length_map, length_combine, length_seq, Nat.min_id | ].
  intros i Hi. rewrite nth_map_combine_seq by assumption. reflexivity.
Qed.

(** On a grid of (x, y) pairs that lives on the host or on accelerator 0,
    the remap multiplies every x by [a_x] and adds [b_x], and every y by
    [a_y] and adds [b_y]. *)
Lemma remap_values (g : Tensor) (a_x a_y b_x b_y : Q) (lead : list Z) :
  shape g = lead ++ [2] -> device g = cpu \/ device g = cuda 0 ->
  let a := FloatTensor [a_x; a_y] in
  let b := FloatTensor [b_x; b_y] in
  let a := if is_cuda_device (device g) then to_cuda a else a in
  let b := if is_cuda_device (device g) then to_cuda b else b in
  exists ga g',
    tensor_mul g a = Ok ga /\ tensor_add ga b = Ok g' /\
    shape g' = shape g /\ device g' = device g /\
    forall k, (2 * k + 1 < length (data g))%nat ->
      (nth (2 * k) (data g') 0 == nth (2 * k) (data g) 0 * a_x + b_x)%Q /\
      (nth (2 * k + 1) (data g') 0 ==
       nth (2 * k + 1) (data g) 0 * a_y + b_y)%Q.
Proof.
  intros Es Hdev a b a' b'.
  assert (Ea : shape a' = [2] /\ data a' = [Qred a_x; Qred a_y] /\
               device g = device a').
  { unfold a', a. destruct Hdev as [-> | ->]; repeat split; reflexivity. }
  assert (Eb : shape b' = [2] /\ data b' = [Qred b_x; Qred b_y] /\
               device g = device b').
  { unfold b', b. destruct Hdev as [-> | ->]; repeat split; reflexivity. }
  destruct Ea as (Ea1 & Ea2 & Ea3). destruct Eb as (Eb1 & Eb2 & Eb3).
  destruct (broadcast_last_pair Qmult g a' _ _ lead Es Ea1 Ea2 Ea3)
    as (ga & Ega & Sga & Dga & Lga & Vga).
  destruct (broadcast_last_pair Qplus ga b' (Qred b_x) (Qred b_y) lead)
    as (g' & Eg' & Sg' & Dg' & Lg' & Vg'); try congruence.
  exists ga, g'. split; [ exact Ega | ]. split; [ exact Eg' | ].
  split; [ congruence | ]. split; [ congruence | ].
  intros k Hk.
  assert (E0 : ((2 * k) mod 2 = 0)%nat)
    by (rewrite Nat.mul_comm; apply Nat.Div0.mod_mul).
  assert (E1 : ((2 * k + 1) mod 2 = 1)%nat).
  { rewrite Nat.add_comm, Nat.mul_comm, Nat.Div0.mod_add. reflexivity. }
  split.
  - rewrite Vg', Vga by lia. rewrite E0. cbn [nth].
    rewrite !Qred_correct. reflexivity.
  - rewrite Vg', Vga by lia. rewrite E1. cbn [nth].
    rewrite !Qred_correct. reflexivity.
Qed.

(** ** The object-level [warp_grid] computes the value-level one *)

(** *** Chunks of flat lists *)

Lemma firstn_add_split {A : Type} (a b : nat) (l : list A) :
  firstn (a + b) l = firstn a l ++ firstn b (skipn a l).
Proof.
  revert l. induction a as [| a IH]; intros l; [ reflexivity | ].
  destruct l as [| x l]; simpl.
  - now rewrite firstn_nil.
  - now rewrite IH.
Qed.

Lemma flat_map_ext_in {A B : Type} (f g : A -> list B) (l : list A) :
  (forall x, In x l -> f x = g x) -> flat_map f l = flat_map g l.
Proof.
  induction l as [| a l IH]; intros H; simpl; [ reflexivity | ].
  rewrite (H a) by now left. rewrite IH; [ reflexivity | ].
  intros x Hx. apply H. now right.
Qed.

Lemma chunks_firstn {A : Type} (d : list A) (c off n : nat) :
  flat_map (fun i => firstn c (skipn (off + i * c) d)) (seq 0 n) =
  firstn (n * c) (skipn off d).
Proof.
  induction n as [| n IH]; [ reflexivity | ].
  rewrite seq_S, flat_map_app, IH. cbn [flat_map plus].
  rewrite app_nil_r.
  replace (S n * c)%nat with (n * c + c)%nat by lia.
  rewrite firstn_add_split, skipn_skipn.
  now replace (n * c + off)%nat with (off + n * c)%nat by lia.
Qed.

Lemma flat_map_chunk {A : Type} (f : nat -> list A) (c n i : nat) :
  (forall j, (j < n)%nat -> length (f j) = c) -> (i < n)%nat ->
  firstn c (skipn (i * c) (flat_map f (seq 0 n))) = f i.
Proof.
  induction n as [| n IH]; intros Hlen Hi; [ lia | ].
  assert (LA : length (flat_map f (seq 0 n)) = (n * c)%nat).
  { rewrite (length_flat_map_const _ _ c).
    - now rewrite length_seq.
    - intros x Hx. apply in_seq in Hx. apply Hlen. lia. }
  rewrite seq_S, flat_map_app. cbn [flat_map plus]. rewrite app_nil_r.
  rewrite skipn_app, LA.
  destruct (Nat.eq_dec i n) as [-> | Hne].
  - rewrite skipn_all2 by lia. rewrite Nat.sub_diag. cbn [skipn app].
    rewrite <- (Hlen n) at 1 by lia. apply firstn_all.
  - assert (Hin : (i < n)%nat) by lia.
    replace (i * c - n * c)%nat with 0%nat by nia. cbn [skipn].
    rewrite firstn_app, length_skipn, LA.
    replace (c - (n * c - i * c))%nat with 0%nat by nia.
    cbn [firstn]. rewrite app_nil_r.
    apply IH; [ | exact Hin ]. intros j Hj. apply Hlen. lia.
Qed.

Lemma firstn_1_skipn {A : Type} (k : nat) (m : list A) (x d : A) :
  firstn 1 (skipn k m) = [x] -> nth k m d = x.
Proof.
  intros E. replace k with (k + 0)%nat by lia. rewrite <- nth_skipn.
  destruct (skipn k m) as [| y r]; [ discriminate | ].
  simpl in E. now injection E.
Qed.

Lemma firstn_1_skipn_lt {A : Type} (k : nat) (m : list A) (d : A) :
  (k < length m)%nat -> firstn 1 (skipn k m) = [nth k m d].
Proof.
  intros Hk. replace k with (k + 0)%nat at 2 by lia. rewrite <- nth_skipn.
  assert (L : (0 < length (skipn k m))%nat) by (rewrite length_skipn; lia).
  destruct (skipn k m) as [| y r]; [ simpl in L; lia | reflexivity ].
Qed.

(** Reading a contiguous layout gives back the storage. *)
Lemma strided_read_contiguous (d : list Q) (sh : list Z) :
  forall off : nat,
    Forall (fun n => 0 <= n) sh ->
    (off + Z.to_nat (numel sh) <= length d)%nat ->
    strided_read d sh (contiguous_strides sh) (Z.of_nat off) =
    firstn (Z.to_nat (numel sh)) (skipn off d).
Proof.
  induction sh as [| n sh IH]; intros off Hs Hb.
  - cbn [strided_read contiguous_strides numel fold_right] in *.
    rewrite Nat2Z.id. change (Z.to_nat 1) with 1%nat in *.
    symmetry. apply firstn_1_skipn_lt. lia.
  - inversion Hs as [| ? ? Hn Hs']; subst.
    pose proof (numel_nonneg sh Hs') as Hc.
    cbn [strided_read contiguous_strides].
    change (numel (n :: sh)) with (n * numel sh) in *.
    rewrite Z2Nat.inj_mul in * by assumption.
    rewrite <- chunks_firstn. apply flat_map_ext_in.
    intros i Hi. apply in_seq in Hi.
    replace (Z.of_nat off + Z.of_nat i * numel sh)
      with (Z.of_nat (off + i * Z.to_nat (numel sh)))
      by (rewrite Nat2Z.inj_add, Nat2Z.inj_mul, Z2Nat.id by lia; reflexivity).
    apply IH; [ assumption | ].
    set (c := Z.to_nat (numel sh)) in *. set (k := Z.to_nat n) in *. nia.
Qed.

Lemma strided_read_contiguous_all (d : list Q) (sh : list Z) :
  Forall (fun n => 0 <= n) sh -> Z.of_nat (length d) = numel sh ->
  strided_read d sh (contiguous_strides sh) 0 = d.
Proof.
  intros Hs Hl. change 0 with (Z.of_nat 0).
  rewrite (strided_read_contiguous d sh 0%nat Hs) by lia.
  cbn [skipn]. rewrite <- Hl, Nat2Z.id. apply firstn_all.
Qed.

(** *** [expand] on a reference and on its value *)

Lemma same_dims_src (ot : list (option (Z * Z))) :
  forall oc, same_dims ot oc ->
    Forall (fun n => 0 <= n) (src_sizes ot) /\
    length (src_strides ot) = length (src_sizes ot).
Proof.
  induction ot as [| [pt |] ot IH]; intros [| [pc |] oc] H;
    cbn [same_dims] in H; try contradiction.
  - split; [ constructor | reflexivity ].
  - destruct H as (_ & Hn & _ & H). destruct (IH oc H) as [Hs Hl].
    cbn [src_sizes src_strides flat_map app length].
    split; [ constructor; assumption | ].
    unfold src_sizes, src_strides in Hl. now rewrite Hl.
  - apply (IH oc H).
Qed.

Lemma block_sub (d m : list Q) (k : nat) (o sz t : Z) (S T : list Z) (i : nat) :
  Forall (fun n => 0 <= n) S -> length T = length S -> 0 <= sz ->
  (i < Z.to_nat sz)%nat ->
  block d m k o (sz :: S) (t :: T) ->
  block d m (k + i * Z.to_nat (numel S)) (o + Z.of_nat i * t) S T.
Proof.
  intros HS HL Hsz Hi B. unfold block in *.
  pose proof (numel_nonneg S HS) as Hc.
  cbn [strided_read] in B. change (numel (sz :: S)) with (sz * numel S) in B.
  rewrite Z2Nat.inj_mul in B by assumption.
  set (c := Z.to_nat (numel S)) in *. set (n := Z.to_nat sz) in *.
  rewrite <- (flat_map_chunk
                (fun j => strided_read d S T (o + Z.of_nat j * t)) c n i);
    [ | intros j _; now apply strided_read_length | exact Hi ].
  rewrite <- B. rewrite skipn_firstn_comm, firstn_firstn, skipn_skipn.
  replace (Init.Nat.min c (n * c - i * c)) with c by nia.
  now replace (i * c + k)%nat with (k + i * c)%nat by lia.
Qed.

Lemma block_unit (d m : list Q) (k : nat) (o t : Z) (S T : list Z) :
  block d m k o (1 :: S) (t :: T) -> block d m k o S T.
Proof.
  unfold block. cbn [strided_read].
  change (numel (1 :: S)) with (1 * numel S). rewrite Z.mul_1_l.
  change (Z.to_nat 1) with 1%nat. cbn [seq flat_map].
  rewrite app_nil_r. change (Z.of_nat 0) with 0.
  now rewrite Z.mul_0_l, Z.add_0_r.
Qed.

Lemma strided_read_broadcast (d : list Q) (S T : list Z) (o : Z) (n : nat) :
  flat_map (fun i => strided_read d S T (o + Z.of_nat i * 0)) (seq 0 n) =
  flat_map (fun _ => strided_read d S T o) (seq 0 n).
Proof.
  apply flat_map_ext. intros i. now rewrite Z.mul_0_r, Z.add_0_r.
Qed.

Lemma expand_dims_same_dims (ot : list (option (Z * Z))) :
  forall oc new, same_dims ot oc ->
    match expand_dims ot new with
    | Ok dt =>
        exists dc, expand_dims oc new = Ok dc /\
          map fst dc = map fst dt /\
          Forall (fun n => 0 <= n) (map fst dt) /\
          forall d m k o,
            block d m k o (src_sizes ot) (src_strides ot) ->
            strided_read m (map fst dc) (map snd dc) (Z.of_nat k) =
            strided_read d (map fst dt) (map snd dt) o
    | Err e => expand_dims oc new = Err e
    end.
Proof.
  induction ot as [| o ot IH]; intros oc new H.
  - destruct oc as [| ? ?]; [ | contradiction ].
    destruct new as [| n new]; cbn [expand_dims]; [ | reflexivity ].
    exists []. split; [ reflexivity | ]. split; [ reflexivity | ].
    split; [ constructor | ].
    intros d m k o B. unfold block in B. cbn [map strided_read] in *.
    change (Z.to_nat (numel [])) with 1%nat in B. rewrite Nat2Z.id.
    f_equal. eapply firstn_1_skipn. exact B.
  - destruct oc as [| o' oc]; [ destruct o; contradiction | ].
    destruct new as [| n new];
      [ destruct o, o'; cbn [same_dims] in H; try contradiction; reflexivity | ].
    cbn [expand_dims].
    assert (H' : same_dims ot oc)
      by (destruct o, o'; cbn [same_dims] in H; tauto).
    specialize (IH oc new H').
    destruct (expand_dims ot new) as [rt | e]; cbn [bind];
      [ | rewrite IH; reflexivity ].
    destruct IH as (rc & Ec & Efst & Hnn & Hdata). rewrite Ec. cbn [bind].
    destruct (same_dims_src ot oc H') as [HS HL].
    destruct o as [[sz t] |], o' as [[sz' c] |]; cbn [same_dims] in H;
      try contradiction.
    + destruct H as (Esz & Hsz & Ec' & _). cbn [fst snd] in Esz, Hsz, Ec'.
      subst sz' c.
      destruct ((n =? -1) || (n =? sz)) eqn:Ekeep.
      * eexists. split; [ reflexivity | ]. cbn [map fst snd].
        split; [ now rewrite Efst | ].
        split; [ constructor; assumption | ].
        intros d m k o B.
        cbn [src_sizes src_strides flat_map app fst snd] in B.
        fold (src_sizes ot) in B. fold (src_strides ot) in B.
        cbn [strided_read]. apply flat_map_ext_in. intros i Hi.
        apply in_seq in Hi.
        pose proof (numel_nonneg _ HS) as Hc.
        replace (Z.of_nat k + Z.of_nat i * numel (src_sizes ot))
          with (Z.of_nat (k + i * Z.to_nat (numel (src_sizes ot))))
          by (rewrite Nat2Z.inj_add, Nat2Z.inj_mul, Z2Nat.id by lia;
              reflexivity).
        apply Hdata. apply block_sub with (sz := sz); try assumption. lia.
      * destruct ((sz =? 1) && (0 <=? n)) eqn:Eone; [ | reflexivity ].
        assert (sz = 1) by lia. subst sz.
        eexists. split; [ reflexivity | ]. cbn [map fst snd].
        split; [ now rewrite Efst | ].
        split; [ constructor; [ lia | assumption ] | ].
        intros d m k o B.
        cbn [src_sizes src_strides flat_map app fst snd] in B.
        fold (src_sizes ot) in B. fold (src_strides ot) in B.
        apply block_unit in B.
        cbn [strided_read]. rewrite !strided_read_broadcast.
        apply flat_map_ext. intros _. now apply Hdata.
    + destruct (n <? 0) eqn:En; [ reflexivity | ].
      eexists. split; [ reflexivity | ]. cbn [map fst snd].
      split; [ now rewrite Efst | ].
      split; [ constructor; [ lia | assumption ] | ].
      intros d m k o B.
      cbn [src_sizes src_strides flat_map app] in B.
      fold (src_sizes ot) in B. fold (src_strides ot) in B.
      cbn [strided_read]. rewrite !strided_read_broadcast.
      apply flat_map_ext. intros _. now apply Hdata.
Qed.

Lemma src_combine (S T : list Z) :
  length T = length S ->
  src_sizes (map Some (combine S T)) = S /\
  src_strides (map Some (combine S T)) = T.
Proof.
  revert T. induction S as [| s S IH]; intros [| t T] HL; try discriminate.
  - split; reflexivity.
  - destruct (IH T) as [E1 E2]; [ simpl in HL; lia | ].
    cbn [combine map src_sizes src_strides flat_map app fst snd].
    unfold src_sizes in E1. unfold src_strides in E2.
    now rewrite E1, E2.
Qed.

Lemma src_pad (j : nat) (l : list (option (Z * Z))) :
  src_sizes (repeat None j ++ l) = src_sizes l /\
  src_strides (repeat None j ++ l) = src_strides l.
Proof.
  induction j as [| j IH]; [ split; reflexivity | exact IH ].
Qed.

Lemma same_dims_combine (S T : list Z) :
  length T = length S -> Forall (fun n => 0 <= n) S ->
  same_dims (map Some (combine S T))
            (map Some (combine S (contiguous_strides S))).
Proof.
  revert T. induction S as [| s S IH]; intros [| t T] HL HS; try discriminate.
  - exact I.
  - inversion HS as [| ? ? Hs HS']; subst.
    cbn [combine contiguous_strides map same_dims fst snd].
    assert (HL' : length T = length S) by (simpl in HL; lia).
    destruct (src_combine S T HL') as [E _]. rewrite E.
    repeat split; [ assumption | now apply IH ].
Qed.

Lemma same_dims_pad (j : nat) (ot oc : list (option (Z * Z))) :
  same_dims ot oc -> same_dims (repeat None j ++ ot) (repeat None j ++ oc).
Proof. induction j as [| j IH]; intros H; [ exact H | exact (IH H) ]. Qed.

Lemma length_contiguous_strides (sh : list Z) :
  length (contiguous_strides sh) = length sh.
Proof. induction sh as [| n sh IH]; simpl; [ reflexivity | now rewrite IH ]. Qed.

(** [expand] on a reference denotes [expand] on the value. *)
Lemma expand_ref_refines (st : store) (r : tensor_ref) (new : list Z) :
  well_shaped r ->
  match expand_ref r new with
  | Ok r' =>
      expand (value_of st r) new = Ok (value_of st r') /\
      storage r' = storage r /\ ref_device r' = ref_device r /\
      well_shaped r'
  | Err e => expand (value_of st r) new = Err e
  end.
Proof.
  intros [HL HS]. unfold expand_ref, expand. cbn [value_of shape data device].
  destruct (Nat.ltb (length new) (length (sizes r))); [ reflexivity | ].
  set (j := (length new - length (sizes r))%nat).
  set (ot := repeat None j ++ map Some (combine (sizes r) (strides r))).
  set (oc := repeat None j ++
             map Some (combine (sizes r) (contiguous_strides (sizes r)))).
  assert (Hsd : same_dims ot oc)
    by (apply same_dims_pad, same_dims_combine; assumption).
  pose proof (expand_dims_same_dims ot oc new Hsd) as Hx.
  destruct (expand_dims ot new) as [dt | e]; cbn [bind];
    [ | now rewrite Hx ].
  destruct Hx as (dc & Ec & Efst & Hnn & Hdata). rewrite Ec. cbn [bind].
  assert (Esrc : src_sizes ot = sizes r /\ src_strides ot = strides r).
  { unfold ot. destruct (src_pad j (map Some (combine (sizes r) (strides r))))
      as [-> ->]. now apply src_combine. }
  destruct Esrc as [Es Et].
  split; [ | split; [ reflexivity | split; [ reflexivity | ] ] ].
  - unfold value_of. cbn [storage offset sizes strides ref_device].
    set (d := nth (storage r) st []).
    assert (B : block d (strided_read d (sizes r) (strides r) (offset r))
                      0 (offset r) (src_sizes ot) (src_strides ot)).
    { rewrite Es, Et. unfold block. cbn [skipn].
      rewrite <- (strided_read_length d (sizes r) (strides r) (offset r))
        by assumption.
      apply firstn_all. }
    change 0 with (Z.of_nat 0) at 1.
    rewrite (Hdata d _ 0%nat (offset r) B), Efst. reflexivity.
  - split; cbn [sizes strides]; [ now rewrite !length_map | exact Hnn ].
Qed.

(** *** New tensors *)

Lemma value_of_alloc (st : store) (t : Tensor) :
  wf t -> value_of (snd (alloc st t)) (fst (alloc st t)) = t.
Proof.
  intros [Hs Hl]. unfold alloc, value_of.
  cbn [fst snd storage offset sizes strides ref_device].
  rewrite app_nth2 by lia. rewrite Nat.sub_diag. cbn [nth].
  rewrite strided_read_contiguous_all by assumption.
  destruct t; reflexivity.
Qed.

Lemma value_of_wf (st : store) (r : tensor_ref) :
  well_shaped r -> wf (value_of st r).
Proof.
  intros [HL HS]. split; cbn [value_of shape data]; [ exact HS | ].
  rewrite strided_read_length by assumption.
  apply Z2Nat.id. now apply numel_nonneg.
Qed.

Lemma length_apply_homography (m p : list Q) :
  length (apply_homography m p) = 3%nat.
Proof. unfold apply_homography. now rewrite !length_map. Qed.

Lemma convert_points_from_homogeneous_3 (b n : Z) (D : list Q) (dev : Device) :
  convert_points_from_homogeneous (mkTensor [b; n; 3] D dev) =
  Ok (mkTensor [b; n; 2]
        (flat_map (fun i => firstn 2 (row 3 D i))
                  (seq 0 (Z.to_nat (numel [n; b]))))
        dev).
Proof. reflexivity. Qed.

Lemma transform_points_wf (Hm p t : Tensor) :
  transform_points Hm p = Ok t ->
  Forall (fun n => 0 <= n) (shape Hm) -> Forall (fun n => 0 <= n) (shape p) ->
  wf t.
Proof.
  unfold transform_points.
  destruct (shape Hm) as [| bh [| r [| c [| ? ?]]]]; try discriminate.
  destruct (shape p) as [| bp [| n [| d [| ? ?]]]]; try discriminate.
  destruct (negb ((r =? 3) && (c =? 3))); [ discriminate | ].
  destruct (negb (device_eqb (device Hm) (device p))); [ discriminate | ].
  destruct (negb (d + 1 =? 3)); [ discriminate | ].
  destruct (negb ((bh =? bp) || (bh =? 1) || (bp =? 1))); [ discriminate | ].
  intros E HH Hp. inv_bind E as points_h Eh E.
  inversion HH as [| ? ? Hbh _]; subst.
  inversion Hp as [| ? ? Hbp Hp']; subst.
  inversion Hp' as [| ? ? Hn _]; subst.
  cbv zeta in E. rewrite convert_points_from_homogeneous_3 in E.
  set (b := if bh =? 1 then bp else bh) in *.
  assert (Hb : 0 <= b) by (unfold b; destruct (bh =? 1); assumption).
  injection E as <-.
  split; cbn [shape data]; [ repeat constructor; lia | ].
  assert (Enum : Z.to_nat (n * (b * 1)) = (Z.to_nat n * Z.to_nat b)%nat).
  { rewrite Z.mul_1_r. now apply Z2Nat.inj_mul. }
  rewrite (length_flat_map_const _ _ 2).
  - rewrite length_seq, Enum. unfold numel, fold_right. nia.
  - intros i Hi. apply in_seq in Hi. rewrite Enum in Hi.
    match goal with
    | |- length (match ?X with _ => _ end) = _ =>
        change (length (firstn 2 X) = 2%nat)
    end.
    unfold row at 1. rewrite !length_firstn, length_skipn.
    rewrite (length_flat_map_const _ _ (Z.to_nat n * 3)).
    + rewrite length_seq. nia.
    + intros ib _. rewrite (length_flat_map_const _ _ 3).
      * now rewrite length_seq.
      * intros ip _. apply length_apply_homography.
Qed.

(** [to] on a reference denotes [to] on the value and keeps what the store
    holds. *)
Lemma to_ref_refines (self : warper_object) (st : store) (r : tensor_ref)
                     (d : Device) :
  well_shaped r ->
  exists r' ext,
    to_ref r d (self, st) = (Ok r', (self, st ++ ext)) /\
    value_of (st ++ ext) r' = to (value_of st r) d.
Proof.
  intros Hr. unfold to_ref. cbn [fst snd].
  destruct (device_eqb (ref_device r) d) eqn:Ed.
  - apply device_eqb_eq in Ed. subst d.
    exists r, []. rewrite app_nil_r. split; reflexivity.
  - pose proof (value_of_alloc st (to (value_of st r) d)) as Ha.
    unfold alloc in *. cbn [fst snd] in Ha.
    eexists. eexists. split; [ reflexivity | ].
    apply Ha. destruct (value_of_wf st r Hr) as [H1 H2]. split; assumption.
Qed.

(** *** The refinement *)

Lemma size_value_of (st : store) (r : tensor_ref) (k : nat) :
  size (value_of st r) k = size_ref r k.
Proof. reflexivity. Qed.

(** On an object and a batch of homographies that are well shaped and live
    in the store, the object-level [warp_grid] raises what the value-level
    [warp_grid] raises, and returns a reference to the tensor it returns. *)
Lemma warp_grid_obj_refines (self : warper_object) (st : store)
                            (Hm : tensor_ref) :
  well_shaped (obj_grid self) -> well_shaped Hm ->
  (storage Hm < length st)%nat ->
  0 <= obj_height self -> 0 <= obj_width self ->
  match warp_grid_obj Hm (self, st) with
  | (Ok r, (_, st')) =>
      warp_grid (warper_value st self) (value_of st Hm) = Ok (value_of st' r)
  | (Err e, _) =>
      warp_grid (warper_value st self) (value_of st Hm) = Err e
  end.
Proof.
  intros Hg HH HsH Hh Hw.
  unfold warp_grid, warp_grid_obj, bindM, lift, self_grid, self_height,
    self_width, type_as_ref, ret, type_as.
  rewrite size_value_of. cbn [fst snd grid height width warper_value].
  destruct (size_ref Hm 0) as [B | e] eqn:EB; cbn [bind]; [ | reflexivity ].
  assert (HB : 0 <= B).
  { unfold size_ref in EB.
    destruct (nth_error (sizes Hm) 0) as [x |] eqn:En; [ | discriminate ].
    injection EB as <-. apply nth_error_In in En.
    destruct HH as [_ HH]. rewrite Forall_forall in HH. now apply HH. }
  change (shape (value_of st (obj_grid self))) with (sizes (obj_grid self)).
  pose proof (expand_ref_refines st (obj_grid self)
                (B :: last_two (sizes (obj_grid self))) Hg) as Hx.
  destruct (expand_ref (obj_grid self) _) as [g | e];
    [ | rewrite Hx; reflexivity ].
  destruct Hx as (Ex & _ & _ & Hg1). rewrite Ex. cbn [bind].
  destruct (to_ref_refines self st g (ref_device Hm) Hg1)
    as (g1 & ext & Eto & Vg1).
  rewrite Eto. change (device (value_of st Hm)) with (ref_device Hm).
  unfold transform_points_ref. cbn [fst snd].
  rewrite Vg1, (value_of_extend st ext Hm HsH).
  destruct (transform_points (value_of st Hm) (to (value_of st g) (ref_device Hm)))
    as [flow | e] eqn:Et; cbn [bind]; [ | reflexivity ].
  assert (Wf : wf flow).
  { apply (transform_points_wf _ _ _ Et).
    - destruct HH as [_ HH]. exact HH.
    - destruct Hg1 as [_ Hg1]. exact Hg1. }
  pose proof (value_of_alloc (st ++ ext) flow Wf) as Va.
  unfold alloc in *. cbn [fst snd] in *.
  unfold view_ref, view. cbn [sizes strides storage offset ref_device].
  rewrite list_Z_eqb_refl.
  destruct (infer_size [B; obj_height self; obj_width self; 2]
                       (numel (shape flow))) as [sh | e] eqn:Ei;
    cbn [bind]; [ | reflexivity ].
  apply infer_size_nonneg_inv in Ei; [ | repeat constructor; lia ].
  destruct Ei as [-> En].
  f_equal. unfold value_of. cbn [storage offset sizes strides ref_device].
  rewrite app_nth2 by lia. rewrite Nat.sub_diag. cbn [nth].
  rewrite strided_read_contiguous_all; [ reflexivity | repeat constructor; lia | ].
  destruct Wf as [_ Wl]. lia.
Qed.

(** The object-level constructor builds the warper the value-level
    constructor builds, in a store that has only gained storages. *)
Lemma HomographyWarper_init_obj_refines (st : store) (h w : Z)
                                        (points : option tensor_ref) :
  match HomographyWarper_init_obj h w points st with
  | Ok (obj, st') =>
      HomographyWarper_init h w (option_map (value_of st) points) =
        Ok (warper_value st' obj) /\
      exists ext, st' = st ++ ext
  | Err e =>
      HomographyWarper_init h w (option_map (value_of st) points) = Err e
  end.
Proof.
  unfold HomographyWarper_init_obj, HomographyWarper_init.
  destruct points as [p |]; cbn [option_map].
  - rewrite !size_value_of.
    destruct (size_ref p 0) as [s0 | e]; cbn [bind]; [ | reflexivity ].
    destruct (py_assert (s0 =? 3) "Points must be 3xN") as [u | e];
      cbn [bind]; [ | reflexivity ].
    destruct (size_ref p 1) as [s1 | e]; cbn [bind]; [ | reflexivity ].
    split; [ reflexivity | exists []; now rewrite app_nil_r ].
  - destruct (create_meshgrid h w true) as [g | e]; cbn [bind];
      [ | reflexivity ].
    unfold alloc, permute_ref, permute. cbn [sizes strides storage offset].
    destruct (is_permutation [0; 2; 1]%nat (length (shape g)));
      cbn [bind]; [ | reflexivity ].
    split; [ | eexists; reflexivity ].
    unfold warper_value, value_of.
    cbn [obj_height obj_width obj_grid storage offset sizes strides ref_device].
    rewrite app_nth2 by lia. rewrite Nat.sub_diag. reflexivity.
Qed.

(** * Further properties *)

(** ** The grid in pixel coordinates *)

Lemma axis_pixel_nth (n i : Z) :
  0 <= i < n ->
  (nth (Z.to_nat i) (axis false n) 0 == inject_Z i)%Q.
Proof.
  intros Hi. unfold axis. rewrite nth_map_seq by lia.
  unfold linspace_value. destruct (n =? 1) eqn:En.
  - assert (i = 0) by lia. subst i. reflexivity.
  - rewrite Qred_correct, Z2Nat.id by lia.
    assert (Hd : ~ (inject_Z (n - 1) == 0)%Q)
      by (unfold Qeq, inject_Z; simpl; lia).
    field. exact Hd.
Qed.

(** X1. Without normalization the grid holds pixel coordinates: for
    [H, W >= 1] the grid has shape (1, 2, H * W) and, at the flattened
    position of row [y] and column [x], channel 0 is [x] and channel 1 is
    [y]. *)
Theorem create_meshgrid_pixel_coordinates :
  forall H W y x : Z,
    0 <= y < H -> 0 <= x < W ->
    exists g, create_meshgrid H W false = Ok g /\
      shape g = [1; 2; H * W] /\
      (get g [0; 0; y * W + x]%Z == inject_Z x)%Q /\
      (get g [0; 1; y * W + x]%Z == inject_Z y)%Q.
Proof.
  intros H W y x Hy Hx.
  destruct (create_meshgrid_get H W y x false Hy Hx) as (g & Eg & Es & Gx & Gy).
  exists g. split; [ exact Eg | ]. split; [ exact Es | ].
  rewrite Gx, Gy. split; now apply axis_pixel_nth.
Qed.

Lemma create_meshgrid_pixel_coordinates_witness :
  exists g, create_meshgrid 2 3 false = Ok g /\
    shape g = [1; 2; 2 * 3] /\
    (get g [0; 0; 1 * 3 + 2]%Z == inject_Z 2)%Q /\
    (get g [0; 1; 1 * 3 + 2]%Z == inject_Z 1)%Q.
Proof.
  apply (create_meshgrid_pixel_coordinates 2 3 1 2); lia.
Defined.

(** ** The range of the normalized grid *)

Lemma linspace_unit_range (n : Z) (i : nat) :
  (i < Z.to_nat n)%nat ->
  (-1 <= linspace_value (-1) 1 n i /\ linspace_value (-1) 1 n i <= 1)%Q.
Proof.
  intros Hi. destruct (Z.eq_dec n 1) as [-> | Hn].
  - unfold linspace_value. cbn. split; unfold Qle; simpl; lia.
  - assert (Hn1 : 1 < n) by lia.
    rewrite linspace_value_unit by assumption.
    assert (Hpos : (0 < inject_Z (n - 1))%Q).
    { change 0%Q with (inject_Z 0). rewrite <- Zlt_Qlt. lia. }
    assert (H0 : (0 <= 2 * inject_Z (Z.of_nat i) / inject_Z (n - 1))%Q).
    { apply Qle_shift_div_l; [ exact Hpos | ].
      change 0%Q with (inject_Z 0). change 2%Q with (inject_Z 2).
      rewrite <- !inject_Z_mult, <- Zle_Qle. lia. }
    assert (H2 : (2 * inject_Z (Z.of_nat i) / inject_Z (n - 1) <= 2)%Q).
    { apply Qle_shift_div_r; [ exact Hpos | ].
      change 2%Q with (inject_Z 2).
      rewrite <- !inject_Z_mult, <- Zle_Qle. lia. }
    split.
    + rewrite <- (Qplus_0_r (-1)) at 1. apply Qplus_le_compat;
        [ apply Qle_refl | exact H0 ].
    + apply Qle_trans with (-1 + 2)%Q;
        [ | unfold Qle; simpl; lia ].
      apply Qplus_le_compat; [ apply Qle_refl | exact H2 ].
Qed.

Lemma Forall_concat_repeat {A : Type} (P : A -> Prop) (l : list A) (k : nat) :
  Forall P l -> Forall P (concat (repeat l k)).
Proof.
  intros Hl. induction k as [| k IH]; simpl; [ constructor | ].
  apply Forall_app. split; assumption.
Qed.

Lemma Forall_flat_map_repeat {A : Type} (P : A -> Prop) (l : list A) (m : nat) :
  Forall P l -> Forall P (flat_map (fun v => repeat v m) l).
Proof.
  induction 1 as [| a l Ha _ IH]; simpl; [ constructor | ].
  apply Forall_app. split; [ | exact IH ].
  apply Forall_forall. intros x Hx. apply repeat_spec in Hx. now subst.
Qed.

Lemma axis_normalized_range (n : Z) :
  Forall (fun q => (-1 <= q /\ q <= 1)%Q) (axis true n).
Proof.
  unfold axis. apply Forall_forall. intros q Hq.
  apply in_map_iff in Hq. destruct Hq as (i & <- & Hi).
  apply in_seq in Hi. apply linspace_unit_range. lia.
Qed.

(** X2. Every coordinate of a normalized grid lies between -1 and 1, the
    range the resampling primitive reads the image in. *)
Theorem create_meshgrid_normalized_range :
  forall (h w : Z) (g : Tensor),
    create_meshgrid h w true = Ok g ->
    Forall (fun q => (-1 <= q /\ q <= 1)%Q) (data g).
Proof.
  intros h w g E.
  destruct (create_meshgrid_ok_inv h w true g E) as [Hh Hw].
  rewrite create_meshgrid_ok in E by assumption.
  injection E as <-. cbn [data].
  apply Forall_app. split.
  - apply Forall_concat_repeat, axis_normalized_range.
  - apply Forall_flat_map_repeat, axis_normalized_range.
Qed.

Lemma create_meshgrid_normalized_range_witness :
  Forall (fun q => (-1 <= q /\ q <= 1)%Q)
         [-1; 0; 1; -1; 0; 1; -1; -1; -1; 1; 1; 1]%Q.
Proof.
  apply (create_meshgrid_normalized_range 2 3
           (mkTensor [1; 2; 6] [-1; 0; 1; -1; 0; 1; -1; -1; -1; 1; 1; 1]%Q cpu)).
  reflexivity.
Defined.

(** ** Construction *)

(** X3. With explicit points the constructor only checks the first
    dimension: a tensor of shape (3, N, ...) gives a warper of height 1 and
    width N whose grid is the tensor itself, whatever height and width were
    passed; another first dimension raises the assertion error, and a
    tensor with fewer than two dimensions raises an index error. *)
Theorem HomographyWarper_init_with_points :
  forall (h w : Z) (points : Tensor),
    (forall n rest, shape points = 3 :: n :: rest ->
       HomographyWarper_init h w (Some points) = Ok (mkWarper 1 n points)) /\
    (forall d rest, shape points = d :: rest -> d <> 3 ->
       HomographyWarper_init h w (Some points) =
       Err (AssertionError "Points must be 3xN")) /\
    (shape points = [3] \/ shape points = [] ->
       HomographyWarper_init h w (Some points) =
       Err (IndexError "Dimension out of range")).
Proof.
  intros h w points. unfold HomographyWarper_init, size. repeat split.
  - intros n rest ->. reflexivity.
  - intros d rest -> Hd. cbn [nth_error bind].
    replace (d =? 3) with false by lia. reflexivity.
  - intros [-> | ->]; reflexivity.
Qed.

(** X4. When points are given, [homography_warp] does not use [dsize]. *)
Theorem homography_warp_points_ignore_dsize :
  forall (patch dst_H_src points : Tensor) (dsize dsize' : Z * Z)
         (padding_mode : string),
    homography_warp patch dst_H_src dsize (Some points) padding_mode =
    homography_warp patch dst_H_src dsize' (Some points) padding_mode.
Proof.
  intros patch Hm points [h w] [h' w'] pm. unfold homography_warp.
  destruct (shape points) as [| d [| n rest]] eqn:Es.
  - unfold HomographyWarper_init, size. rewrite Es. reflexivity.
  - unfold HomographyWarper_init, size. rewrite Es. cbn [nth_error bind].
    destruct (py_assert (d =? 3) "Points must be 3xN"); reflexivity.
  - unfold HomographyWarper_init, size. rewrite Es. reflexivity.
Qed.

(** *** The template grid *)

Lemma nth_flat_map_chunk {A : Type} (f : nat -> list A) (c n i r : nat) (d : A) :
  (forall j, (j < n)%nat -> length (f j) = c) -> (i < n)%nat -> (r < c)%nat ->
  nth (i * c + r) (flat_map f (seq 0 n)) d = nth r (f i) d.
Proof.
  intros Hlen Hi Hr.
  rewrite <- (flat_map_chunk f c n i Hlen Hi).
  rewrite nth_firstn. replace (r <? c)%nat with true
    by (symmetry; apply Nat.ltb_lt; exact Hr).
  now rewrite nth_skipn.
Qed.

(** Element [(i, j, k)] of a view with three dimensions. *)
Lemma nth_strided_read_3 (d : list Q) (A B C s0 s1 s2 off : Z) (i j k : nat) :
  0 <= A -> 0 <= B -> 0 <= C ->
  (i < Z.to_nat A)%nat -> (j < Z.to_nat B)%nat -> (k < Z.to_nat C)%nat ->
  nth ((i * Z.to_nat B + j) * Z.to_nat C + k)
      (strided_read d [A; B; C] [s0; s1; s2] off) 0%Q =
  nth (Z.to_nat (off + Z.of_nat i * s0 + Z.of_nat j * s1 + Z.of_nat k * s2))
      d 0%Q.
Proof.
  intros HA HB HC Hi Hj Hk. cbn [strided_read].
  replace ((i * Z.to_nat B + j) * Z.to_nat C + k)%nat
    with (i * (Z.to_nat B * Z.to_nat C) + (j * Z.to_nat C + k))%nat by lia.
  rewrite (nth_flat_map_chunk _ (Z.to_nat B * Z.to_nat C)); try assumption.
  - rewrite (nth_flat_map_chunk _ (Z.to_nat C)); try assumption.
    + replace k with (k * 1 + 0)%nat at 1 by lia.
      rewrite (nth_flat_map_chunk _ 1); try (assumption || lia); reflexivity.
    + intros j' _. rewrite (length_flat_map_const _ _ 1);
        [ rewrite length_seq; lia | reflexivity ].
  - intros i' _. rewrite (length_flat_map_const _ _ (Z.to_nat C));
      [ now rewrite length_seq | ].
    intros j' _. rewrite (length_flat_map_const _ _ 1);
      [ rewrite length_seq; lia | reflexivity ].
  - nia.
Qed.

Lemma to_nat_index3 (i j k B C : Z) :
  0 <= i -> 0 <= j -> 0 <= k -> 0 <= B -> 0 <= C ->
  Z.to_nat ((i * B + j) * C + k) =
  ((Z.to_nat i * Z.to_nat B + Z.to_nat j) * Z.to_nat C + Z.to_nat k)%nat.
Proof.
  intros. rewrite Z2Nat.inj_add, Z2Nat.inj_mul, Z2Nat.inj_add, Z2Nat.inj_mul
    by nia. reflexivity.
Qed.

(** [permute(0, 2, 1)] swaps the last two indices. *)
Lemma get_permute_021 (t : Tensor) (A B C i n c : Z) :
  shape t = [A; B; C] ->
  0 <= i < A -> 0 <= n < C -> 0 <= c < B ->
  exists t', permute t [0; 2; 1]%nat = Ok t' /\
             shape t' = [A; C; B] /\ device t' = device t /\
             get t' [i; n; c] = get t [i; c; n].
Proof.
  intros Es Hi Hn Hc. unfold permute. rewrite Es.
  cbn [length]. rewrite is_permutation_021.
  cbn [map nth contiguous_strides].
  eexists. split; [ reflexivity | ]. split; [ reflexivity | ].
  split; [ reflexivity | ].
  unfold get. cbn [shape data]. rewrite Es.
  unfold flat_index. cbn [combine fold_left fst snd].
  rewrite !Z.mul_0_l, !Z.add_0_l.
  rewrite !to_nat_index3 by lia.
  rewrite nth_strided_read_3 by lia.
  rewrite !Z2Nat.id by lia. f_equal.
  rewrite <- to_nat_index3 by lia. f_equal.
  unfold numel, fold_right. ring.
Qed.

(** X5. In full-image mode the constructor keeps the given height and
    width, and its template grid has shape (1, H * W, 2): one row per
    destination pixel in row-major order, row [y * W + x] being the point
    (x_coord, y_coord), the [x]-th of [W] and the [y]-th of [H] samples
    from -1 to 1. *)
Theorem HomographyWarper_init_template_grid :
  forall h w y x : Z,
    0 <= y < h -> 0 <= x < w ->
    exists self,
      HomographyWarper_init h w None = Ok self /\
      height self = h /\ width self = w /\
      shape (grid self) = [1; h * w; 2] /\
      get (grid self) [0; y * w + x; 0] =
        linspace_value (-1) 1 w (Z.to_nat x) /\
      get (grid self) [0; y * w + x; 1] =
        linspace_value (-1) 1 h (Z.to_nat y).
Proof.
  intros h w y x Hy Hx.
  destruct (create_meshgrid_get h w y x true Hy Hx) as (g & Eg & Es & Gx & Gy).
  assert (Hn : 0 <= y * w + x < h * w) by nia.
  destruct (get_permute_021 g 1 2 (h * w) 0 (y * w + x) 0 Es)
    as (t & Et & Est & _ & G0); try lia.
  destruct (get_permute_021 g 1 2 (h * w) 0 (y * w + x) 1 Es)
    as (t1 & Et1 & _ & _ & G1); try lia.
  rewrite Et in Et1. injection Et1 as <-.
  exists (mkWarper h w t).
  split; [ unfold HomographyWarper_init; rewrite Eg; cbn [bind];
           rewrite Et; reflexivity | ].
  cbn [height width grid]. repeat split; try assumption.
  - rewrite G0, Gx. now apply axis_normalized_nth.
  - rewrite G1, Gy. now apply axis_normalized_nth.
Qed.

Lemma HomographyWarper_init_template_grid_witness :
  exists self,
    HomographyWarper_init 2 3 None = Ok self /\
    height self = 2 /\ width self = 3 /\
    shape (grid self) = [1; 2 * 3; 2] /\
    get (grid self) [0; 1 * 3 + 2; 0] = linspace_value (-1) 1 3 (Z.to_nat 2) /\
    get (grid self) [0; 1 * 3 + 2; 1] = linspace_value (-1) 1 2 (Z.to_nat 1).
Proof.
  apply (HomographyWarper_init_template_grid 2 3 1 2); lia.
Defined.

(** ** [warp_grid] and the device of the template *)

Lemma to_to (t : Tensor) (d d' : Device) : to (to t d) d' = to t d'.
Proof. reflexivity. Qed.

Lemma expand_to (t : Tensor) (d : Device) (new : list Z) :
  expand (to t d) new =
  match expand t new with
  | Ok t' => Ok (to t' d)
  | Err e => Err e
  end.
Proof.
  unfold expand. cbn [to shape data device].
  destruct (Nat.ltb (length new) (length (shape t))); [ reflexivity | ].
  destruct (expand_dims _ new); reflexivity.
Qed.

(** X6. [warp_grid] copies the expanded grid to the device of the
    homographies, so what it returns, or raises, does not depend on the
    device the template grid lives on. *)
Theorem warp_grid_ignores_template_device :
  forall (self : HomographyWarper) (d : Device) (Hm : Tensor),
    warp_grid (mkWarper (height self) (width self) (to (grid self) d)) Hm =
    warp_grid self Hm.
Proof.
  intros self d Hm. unfold warp_grid. cbn [grid height width].
  destruct (size Hm 0) as [B | e]; cbn [bind]; [ | reflexivity ].
  change (shape (to (grid self) d)) with (shape (grid self)).
  rewrite expand_to.
  destruct (expand (grid self) _) as [g | e]; cbn [bind]; reflexivity.
Qed.

(** ** [warp_grid] in full-image mode *)

(** X7. For a warper of any height and width that are not negative and a
    batch of one or more 3x3 homographies, [warp_grid] returns a
    well-formed tensor of shape (batch, height, width, 2) on the device of
    the homographies. *)
Theorem warp_grid_full_image_returns :
  forall (h w B : Z) (Hm : Tensor),
    0 <= h -> 0 <= w -> 1 <= B -> shape Hm = [B; 3; 3] ->
    exists self g,
      HomographyWarper_init h w None = Ok self /\
      warp_grid self Hm = Ok g /\
      shape g = [B; h; w; 2] /\ device g = device Hm /\ wf g.
Proof.
  intros h w B Hm Hh Hw HB1 EH.
  assert (HB : 0 <= B) by lia.
  destruct (warp_grid_full_image h w B Hm Hh Hw HB EH)
    as (self & g & Ei & Eh & Ew & Eg & Es & Ed).
  exists self, g. repeat (split; [ assumption | ]).
  split; [ rewrite Es; repeat constructor; lia | ].
  pose proof Eg as E. unfold warp_grid in E.
  rewrite (size_0 Hm B [3; 3] EH) in E. cbn [bind] in E.
  inv_bind E as g1 Ee E. inv_bind E as flow Et E.
  destruct (HomographyWarper_init_full h w Hh Hw) as (g0 & Ei0 & Es0 & _).
  rewrite Ei in Ei0. injection Ei0 as ->. cbn [grid] in Ee.
  assert (Hhw : 0 <= h * w) by nia.
  destruct (expand_batch g0 B (h * w) Es0 HB Hhw) as (g1' & Ee' & Es1 & _).
  rewrite Es0 in Ee. change (last_two [1; h * w; 2]) with [h * w; 2] in Ee.
  rewrite Ee' in Ee. injection Ee as <-.
  assert (Wf : wf flow).
  { apply (transform_points_wf _ _ _ Et).
    - rewrite EH. repeat constructor; lia.
    - unfold type_as, to. cbn [shape]. rewrite Es1. repeat constructor; lia. }
  destruct (transform_points_shape Hm (type_as (to g1' (device Hm)) Hm) B (h * w))
    as (flow' & Et' & Esf & _); [ exact EH | exact Es1 | reflexivity | ].
  rewrite Et in Et'. injection Et' as <-.
  unfold view in E. inv_bind E as sh Ev E. injection E as <-.
  cbn [data shape] in *. destruct Wf as [_ Wl]. rewrite Wl, Esf, Es.
  unfold numel, fold_right. ring.
Qed.

Lemma warp_grid_full_image_returns_witness :
  exists self g,
    HomographyWarper_init 2 3 None = Ok self /\
    warp_grid self (eye3 2 cpu) = Ok g /\
    shape g = [2; 2; 3; 2] /\ device g = device (eye3 2 cpu) /\ wf g.
Proof.
  apply (warp_grid_full_image_returns 2 3 2 (eye3 2 cpu)); try lia.
  reflexivity.
Defined.

(** ** [random_warp] *)

(** X8. The module defines and imports no [random_homography], so
    [random_warp] raises the undefined-name error on every call, whatever
    the warper, the patch and the distortion, and returns nothing. *)
Theorem random_warp_always_raises :
  forall (A : Type) (sampler : A -> result Tensor) (self : HomographyWarper)
         (patch : Tensor) (dist : A),
    random_warp sampler self patch dist = Err (NameError "random_homography").
Proof. reflexivity. Qed.

(** ** The checks of [crop_and_warp] *)

Lemma py_index_short (roi : list Z) (k : nat) :
  (length roi <= k)%nat ->
  py_index roi k = Err (IndexError "tuple index out of range").
Proof.
  intros H. unfold py_index.
  now replace (nth_error roi k) with (@None Z)
    by (symmetry; apply nth_error_None; exact H).
Qed.



(** ** The remap of [crop_and_warp] *)



(** ** The identity homography *)

(** *** Lists cut in rows *)

Lemma flat_map_const_seq {A : Type} (l : list A) (s k : nat) :
  flat_map (fun _ => l) (seq s k) = concat (repeat l k).
Proof.
  revert s. induction k as [| k IH]; intros s; simpl; [ reflexivity | ].
  now rewrite IH.
Qed.

Lemma row_concat_repeat (l : list Q) (k i : nat) :
  (i < k)%nat -> row (length l) (concat (repeat l k)) i = l.
Proof.
  intros Hi. unfold row. rewrite <- (flat_map_const_seq l 0 k).
  apply (flat_map_chunk (fun _ => l)); [ reflexivity | exact Hi ].
Qed.

Lemma flat_map_seq_shift {A : Type} (n : nat) :
  forall (f : nat -> list A) (s : nat),
    flat_map f (seq s n) = flat_map (fun b => f (s + b)%nat) (seq 0 n).
Proof.
  induction n as [| n IH]; intros f s; [ reflexivity | ].
  cbn [seq flat_map]. rewrite Nat.add_0_r. f_equal.
  rewrite (IH f (S s)), (IH (fun b => f (s + b)%nat) 1%nat).
  apply flat_map_ext. intros b. f_equal. lia.
Qed.

Lemma flat_map_nested_seq {A : Type} (f : nat -> list A) (m n : nat) :
  flat_map (fun a => flat_map (fun b => f (a * n + b)%nat) (seq 0 n)) (seq 0 m) =
  flat_map f (seq 0 (m * n)).
Proof.
  induction m as [| m IH]; [ reflexivity | ].
  rewrite seq_S, flat_map_app, IH. cbn [flat_map plus]. rewrite app_nil_r.
  replace (S m * n)%nat with (m * n + n)%nat by lia.
  rewrite seq_app, flat_map_app. cbn [plus]. f_equal.
  symmetry. apply flat_map_seq_shift.
Qed.

Lemma row_pair (l : list Q) (i : nat) :
  (2 * i + 2 <= length l)%nat ->
  row 2 l i = [nth (2 * i) l 0%Q; nth (2 * i + 1) l 0%Q].
Proof.
  intros Hl. unfold row.
  replace (nth (2 * i) l 0%Q) with (nth 0 (skipn (i * 2) l) 0%Q)
    by (rewrite nth_skipn; f_equal; lia).
  replace (nth (2 * i + 1) l 0%Q) with (nth 1 (skipn (i * 2) l) 0%Q)
    by (rewrite nth_skipn; f_equal; lia).
  assert (L : (2 <= length (skipn (i * 2) l))%nat)
    by (rewrite length_skipn; lia).
  destruct (skipn (i * 2) l) as [| a [| b r]]; simpl in L; try lia.
  reflexivity.
Qed.

Lemma rows_of_pairs (l : list Q) (k : nat) :
  length l = (k * 2)%nat ->
  flat_map (row 2 l) (seq 0 k) = l.
Proof.
  intros Hl. unfold row.
  transitivity (firstn (k * 2) (skipn 0 l));
    [ exact (chunks_firstn l 2 0 k) | ].
  cbn [skipn]. rewrite <- Hl. apply firstn_all.
Qed.

(** *** The point transform under the identity *)

Lemma canonical_Qred (q : Q) : canonical (Qred q).
Proof. unfold canonical. apply Qred_complete, Qred_correct. Qed.

Lemma apply_homography_identity (x y : Q) :
  apply_homography [1; 0; 0; 0; 1; 0; 0; 0; 1]%Q [x; y; 1%Q] =
  [Qred x; Qred y; 1%Q].
Proof.
  unfold apply_homography, row, dot.
  cbn [seq map firstn skipn Nat.mul Nat.add combine fold_right fst snd nth].
  f_equal; [ | f_equal; [ | f_equal ] ].
  - apply Qred_complete. field.
  - apply Qred_complete. field.
  - transitivity (Qred 1); [ apply Qred_complete; field | reflexivity ].
Qed.

Lemma eye3_row (b i : nat) (d : Device) :
  (i < b)%nat -> row 9 (data (eye3 b d)) i = [1; 0; 0; 0; 1; 0; 0; 0; 1]%Q.
Proof.
  intros Hi. unfold eye3. cbn [data].
  exact (row_concat_repeat [1; 0; 0; 0; 1; 0; 0; 0; 1]%Q b i Hi).
Qed.

Lemma length_row_2 (l : list Q) (i : nat) :
  (2 * i + 2 <= length l)%nat -> length (row 2 l i) = 2%nat.
Proof. intros Hl. now rewrite row_pair. Qed.

Lemma map_flat_map {A B C : Type} (g : B -> C) (f : A -> list B) (l : list A) :
  map g (flat_map f l) = flat_map (fun a => map g (f a)) l.
Proof.
  induction l as [| a l IH]; simpl; [ reflexivity | ].
  now rewrite map_app, IH.
Qed.

Lemma row_flat_map (f : nat -> list Q) (c n i : nat) :
  (forall j, (j < n)%nat -> length (f j) = c) -> (i < n)%nat ->
  row c (flat_map f (seq 0 n)) i = f i.
Proof. intros Hlen Hi. unfold row. now apply flat_map_chunk. Qed.

(** The identity leaves every point where it is. *)
Lemma transform_points_identity (b : nat) (n : Z) (p : Tensor) :
  shape p = [Z.of_nat b; n; 2] -> wf p ->
  transform_points (eye3 b (device p)) p =
  Ok (mkTensor [Z.of_nat b; n; 2] (map Qred (data p)) (device p)).
Proof.
  intros Es [Hs Hl]. rewrite Es in Hs, Hl.
  assert (Hn : 0 <= n).
  { inversion Hs as [| ? ? _ Hs']; inversion Hs'; assumption. }
  set (N := Z.to_nat n).
  assert (LP : length (data p) = (b * N * 2)%nat).
  { apply Nat2Z.inj. rewrite Hl. unfold numel, fold_right, N.
    rewrite !Nat2Z.inj_mul, Z2Nat.id by assumption. change (Z.of_nat 2) with 2.
    ring. }
  assert (EK : Z.to_nat (numel [n; Z.of_nat b]) = (b * N)%nat).
  { unfold numel, fold_right, N. rewrite Z.mul_1_r, Z2Nat.inj_mul, Nat2Z.id by lia.
    lia. }
  unfold transform_points. rewrite Es. cbn [eye3 shape data device].
  change (3 =? 3) with true. cbn [andb negb].
  rewrite device_eqb_refl. cbn [negb].
  change (2 + 1 =? 3) with true. rewrite (Z.eqb_refl (Z.of_nat b)).
  cbn [negb orb].
  unfold convert_points_to_homogeneous. rewrite Es. cbn [rev app bind data device].
  replace (if Z.of_nat b =? 1 then Z.of_nat b else Z.of_nat b) with (Z.of_nat b)
    by (destruct (Z.of_nat b =? 1); reflexivity).
  rewrite convert_points_from_homogeneous_3. rewrite EK.
  change (Z.to_nat 2) with 2%nat. rewrite Nat2Z.id. fold N.
  f_equal. f_equal.
  set (G := fun k : nat => map Qred (row 2 (data p) k) ++ [1%Q]).
  assert (LG : forall j, (j < b * N)%nat -> length (G j) = 3%nat).
  { intros j Hj. unfold G. rewrite length_app, length_map, length_row_2 by lia.
    reflexivity. }
  assert (ED : flat_map (fun ib =>
                 flat_map (fun ip =>
                   apply_homography
                     (row 9 (concat (repeat [1; 0; 0; 0; 1; 0; 0; 0; 1]%Q b))
                          (if Z.of_nat b =? 1 then 0%nat else ib))
                     (row 3 (flat_map (fun i => row 2 (data p) i ++ [1%Q])
                                      (seq 0 (b * N)))
                          ((if Z.of_nat b =? 1 then 0%nat else ib) * N + ip)))
                   (seq 0 N))
                 (seq 0 b) =
               flat_map G (seq 0 (b * N))).
  { rewrite <- (flat_map_nested_seq G b N).
    apply flat_map_ext_in. intros ib Hib. apply in_seq in Hib.
    assert (Eib : (if Z.of_nat b =? 1 then 0%nat else ib) = ib).
    { destruct (Z.eqb_spec (Z.of_nat b) 1); [ lia | reflexivity ]. }
    rewrite Eib.
    apply flat_map_ext_in. intros ip Hip. apply in_seq in Hip.
    pose proof (eye3_row b ib (device p) (proj2 Hib)) as Er.
    unfold eye3 in Er. cbn [data] in Er. rewrite Er.
    rewrite (row_flat_map _ 3) by
      (try (intros j Hj; rewrite length_app, length_row_2 by lia; reflexivity);
       nia).
    unfold G. rewrite (row_pair (data p) (ib * N + ip)) by nia.
    cbn [app map]. apply apply_homography_identity. }
  rewrite ED.
  transitivity (flat_map (fun i => map Qred (row 2 (data p) i)) (seq 0 (b * N))).
  - apply flat_map_ext_in. intros i Hi. apply in_seq in Hi.
    rewrite (row_flat_map G 3) by (assumption || lia).
    unfold G. rewrite (row_pair (data p) i) by nia. reflexivity.
  - rewrite <- map_flat_map. f_equal. apply rows_of_pairs. lia.
Qed.

(** *** The template grid repeated over the batch *)

Lemma expand_batch_data (t : Tensor) (b : nat) (m : Z) :
  shape t = [1; m; 2] -> wf t ->
  expand t [Z.of_nat b; m; 2] =
  Ok (mkTensor [Z.of_nat b; m; 2] (concat (repeat (data t) b)) (device t)).
Proof.
  intros Es [Hs Hl]. rewrite Es in Hs, Hl.
  assert (Hm : 0 <= m).
  { inversion Hs as [| ? ? _ Hs']; inversion Hs'; assumption. }
  unfold expand. rewrite Es.
  cbn [length Nat.ltb Nat.leb Nat.sub repeat app contiguous_strides combine map
       expand_dims].
  change (2 =? -1) with false. change (2 =? 2) with true.
  cbn [orb bind].
  rewrite (Z.eqb_refl m), orb_true_r. cbn [bind].
  destruct ((Z.of_nat b =? -1) || (Z.of_nat b =? 1)) eqn:EB.
  - assert (b = 1%nat) by (apply orb_true_iff in EB; lia). subst b. cbn [bind map fst snd].
    f_equal. f_equal. cbn [repeat concat]. rewrite app_nil_r.
    exact (strided_read_contiguous_all (data t) [1; m; 2] Hs Hl).
  - clear EB. change (1 =? 1) with true.
    replace (0 <=? Z.of_nat b) with true by (symmetry; apply Z.leb_le; lia).
    cbn [andb bind map fst snd]. f_equal. f_equal.
    cbn [strided_read]. rewrite Nat2Z.id.
    rewrite <- (flat_map_const_seq (data t) 0 b).
    apply flat_map_ext_in. intros i _.
    replace (0 + Z.of_nat i * 0) with 0 by lia.
    apply (strided_read_contiguous_all (data t) [m; 2]).
    + repeat constructor; lia.
    + rewrite Hl. unfold numel, fold_right. ring.
Qed.

Lemma Forall_strided_read (P : Q -> Prop) (d : list Q) :
  P 0%Q -> Forall P d ->
  forall (sz st : list Z) (off : Z),
    Forall P (strided_read d sz st off).
Proof.
  intros H0 Hd.
  assert (Hn : forall k, P (nth k d 0%Q)).
  { intros k. destruct (Nat.lt_ge_cases k (length d)) as [Hk | Hk].
    - rewrite Forall_forall in Hd. apply Hd. now apply nth_In.
    - now rewrite nth_overflow. }
  induction sz as [| n sz IH]; intros st off.
  - cbn [strided_read]. repeat constructor. apply Hn.
  - destruct st as [| s st]; cbn [strided_read].
    + repeat constructor. apply Hn.
    + apply Forall_flat_map. apply Forall_forall. intros i _. apply IH.
Qed.

Lemma canonical_linspace_unit (n : Z) (i : nat) :
  canonical (linspace_value (-1) 1 n i).
Proof.
  unfold linspace_value. destruct (n =? 1); [ reflexivity | apply canonical_Qred ].
Qed.

Lemma map_canonical (l : list Q) : Forall canonical l -> map Qred l = l.
Proof.
  induction 1 as [| q l Hq _ IH]; simpl; [ reflexivity | ].
  now rewrite Hq, IH.
Qed.

(** The template grid of a full-image warper: its elements are normalized
    coordinates in canonical form. *)
Lemma template_grid_canonical (h w : Z) :
  0 <= h -> 0 <= w ->
  exists g,
    HomographyWarper_init h w None = Ok (mkWarper h w g) /\
    shape g = [1; h * w; 2] /\ device g = cpu /\ wf g /\
    Forall canonical (data g).
Proof.
  intros Hh Hw. unfold HomographyWarper_init.
  rewrite create_meshgrid_ok by assumption. cbn [bind].
  unfold permute. cbn [shape data device length].
  rewrite is_permutation_021. cbn [bind map nth].
  eexists. split; [ reflexivity | ]. split; [ reflexivity | ].
  split; [ reflexivity | ].
  assert (Hhw : 0 <= h * w) by nia.
  split.
  - split; cbn [shape data].
    + repeat constructor; lia.
    + rewrite strided_read_length;
        [ | reflexivity | repeat constructor; lia ].
      apply Z2Nat.id. apply numel_nonneg. repeat constructor; lia.
  - cbn [data]. apply Forall_strided_read; [ reflexivity | ].
    assert (Ha : forall n, Forall canonical (axis true n)).
    { intros n. unfold axis. apply Forall_forall. intros q Hq.
      apply in_map_iff in Hq. destruct Hq as (i & <- & _).
      apply canonical_linspace_unit. }
    apply Forall_app. split.
    + apply Forall_concat_repeat, Ha.
    + apply Forall_flat_map_repeat, Ha.
Qed.

Lemma warp_grid_identity_data (h w : Z) (b : nat) (d : Device) (g : Tensor) :
  0 <= h -> 0 <= w ->
  shape g = [1; h * w; 2] -> wf g -> Forall canonical (data g) ->
  warp_grid (mkWarper h w g) (eye3 b d) =
  Ok (mkTensor [Z.of_nat b; h; w; 2] (concat (repeat (data g) b)) d).
Proof.
  intros Hh Hw Es Wf Hc.
  assert (Hhw : 0 <= h * w) by nia.
  unfold warp_grid.
  change (size (eye3 b d) 0) with (Ok (A := Z) (Z.of_nat b)). cbn [bind grid height width].
  rewrite Es. change (last_two [1; h * w; 2]) with [h * w; 2].
  rewrite (expand_batch_data g b (h * w) Es Wf). cbn [bind].
  set (p := type_as (to (mkTensor [Z.of_nat b; h * w; 2]
                                  (concat (repeat (data g) b)) (device g))
                        (device (eye3 b d)))
                    (eye3 b d)).
  assert (Wp : wf p).
  { split; cbn [p type_as to shape data].
    - repeat constructor; lia.
    - rewrite length_concat_repeat. destruct Wf as [_ Hl]. rewrite Es in Hl.
      rewrite Nat2Z.inj_mul, Hl. unfold numel, fold_right. ring. }
  pose proof (transform_points_identity b (h * w) p eq_refl Wp) as Et.
  change (device p) with d in Et. rewrite Et. cbn [bind].
  unfold view. cbn [shape data device].
  replace (numel [Z.of_nat b; h * w; 2]) with (numel [Z.of_nat b; h; w; 2])
    by (unfold numel, fold_right; ring).
  rewrite infer_size_exact by (repeat constructor; lia).
  cbn [bind]. f_equal. f_equal.
  cbn [p type_as to data]. apply map_canonical.
  now apply Forall_concat_repeat.
Qed.

(** X11. The identity homography moves no point.  In full-image mode,
    [warp_grid] of a batch of [b] identity matrices returns the template
    grid once for every batch element, as a tensor of shape
    (b, height, width, 2) on the device of the homographies.  The point
    transform is the one described for the [conversions] module. *)
Theorem warp_grid_identity :
  forall (h w : Z) (b : nat) (d : Device),
    0 <= h -> 0 <= w ->
    exists self,
      HomographyWarper_init h w None = Ok self /\
      warp_grid self (eye3 b d) =
      Ok (mkTensor [Z.of_nat b; h; w; 2]
                   (concat (repeat (data (grid self)) b)) d).
Proof.
  intros h w b d Hh Hw.
  destruct (template_grid_canonical h w Hh Hw) as (g & Ei & Es & _ & Wf & Hc).
  exists (mkWarper h w g). split; [ exact Ei | ].
  now apply warp_grid_identity_data.
Qed.

Lemma warp_grid_identity_witness :
  exists self,
    HomographyWarper_init 2 3 None = Ok self /\
    warp_grid self (eye3 2 cpu) =
    Ok (mkTensor [Z.of_nat 2; 2; 3; 2]
                 (concat (repeat (data (grid self)) 2)) cpu).
Proof. apply (warp_grid_identity 2 3 2 cpu); lia. Defined.

(** *** Resampling at the pixel centres *)

Lemma unnormalize_linspace (n : Z) (i : nat) :
  (i < Z.to_nat n)%nat ->
  (unnormalize (linspace_value (-1) 1 n i) n == inject_Z (Z.of_nat i))%Q.
Proof.
  intros Hi. unfold unnormalize.
  destruct (Z.eq_dec n 1) as [-> | Hn].
  - assert (i = 0%nat) by lia. subst i. reflexivity.
  - assert (Hn1 : 1 < n) by lia.
    rewrite linspace_value_unit by assumption.
    assert (Hd : ~ (inject_Z (n - 1) == 0)%Q).
    { unfold Qeq, inject_Z. simpl. lia. }
    field. exact Hd.
Qed.

Lemma clampQ_inside (lo hi v : Q) :
  (lo <= v)%Q -> (v <= hi)%Q -> (clampQ lo hi v == v)%Q.
Proof.
  intros Hlo Hhi. unfold clampQ.
  destruct (Qle_bool v lo) eqn:E1.
  - apply Qle_bool_iff in E1. now apply Qle_antisym.
  - destruct (Qle_bool hi v) eqn:E2; [ | reflexivity ].
    apply Qle_bool_iff in E2. now apply Qle_antisym.
Qed.

Lemma pixel_inside (input : Tensor) (C Hin Win n c y x : Z) :
  0 <= y < Hin -> 0 <= x < Win ->
  pixel input C Hin Win n c y x =
  nth (Z.to_nat (((n * C + c) * Hin + y) * Win + x)) (data input) 0%Q.
Proof.
  intros Hy Hx. unfold pixel.
  replace ((0 <=? y) && (y <? Hin) && (0 <=? x) && (x <? Win)) with true;
    [ reflexivity | ].
  symmetry. rewrite !andb_true_iff. lia.
Qed.

(** A grid location that is the centre of pixel [(y, x)] reads that pixel. *)
Lemma sample_at_pixel (input : Tensor) (C Hin Win n c y x : Z) (pm : string)
                      (gx gy : Q) :
  0 <= y < Hin -> 0 <= x < Win ->
  (unnormalize gx Win == inject_Z x)%Q -> (unnormalize gy Hin == inject_Z y)%Q ->
  sample input C Hin Win "bilinear" pm n c gx gy =
  Qred (pixel input C Hin Win n c y x).
Proof.
  intros Hy Hx Ex Ey. unfold sample.
  change (String.eqb "bilinear" "nearest") with false. cbv iota zeta.
  set (ix := if String.eqb pm "border"
             then clampQ 0 (inject_Z (Win - 1)) (unnormalize gx Win)
             else unnormalize gx Win).
  set (iy := if String.eqb pm "border"
             then clampQ 0 (inject_Z (Hin - 1)) (unnormalize gy Hin)
             else unnormalize gy Hin).
  assert (Hix : (ix == inject_Z x)%Q).
  { unfold ix. destruct (String.eqb pm "border"); [ | exact Ex ].
    rewrite clampQ_inside; [ exact Ex | | ]; rewrite Ex.
    - change 0%Q with (inject_Z 0). rewrite <- Zle_Qle. lia.
    - rewrite <- Zle_Qle. lia. }
  assert (Hiy : (iy == inject_Z y)%Q).
  { unfold iy. destruct (String.eqb pm "border"); [ | exact Ey ].
    rewrite clampQ_inside; [ exact Ey | | ]; rewrite Ey.
    - change 0%Q with (inject_Z 0). rewrite <- Zle_Qle. lia.
    - rewrite <- Zle_Qle. lia. }
  assert (Fx : Qfloor ix = x) by (rewrite Hix; apply Qfloor_Z).
  assert (Fy : Qfloor iy = y) by (rewrite Hiy; apply Qfloor_Z).
  clearbody ix iy. rewrite Fx, Fy.
  apply Qred_complete. rewrite Hix, Hiy. ring.
Qed.

Lemma template_grid_nth (h w : Z) (g : Tensor) (i j : nat) :
  HomographyWarper_init h w None = Ok (mkWarper h w g) ->
  (i < Z.to_nat h)%nat -> (j < Z.to_nat w)%nat ->
  nth ((i * Z.to_nat w + j) * 2) (data g) 0%Q = linspace_value (-1) 1 w j /\
  nth (S ((i * Z.to_nat w + j) * 2)) (data g) 0%Q = linspace_value (-1) 1 h i.
Proof.
  intros E Hi Hj.
  set (y := Z.of_nat i). set (x := Z.of_nat j).
  assert (Hy : 0 <= y < h) by lia. assert (Hx : 0 <= x < w) by lia.
  destruct (create_meshgrid_get h w y x true Hy Hx) as (g0 & Eg & Es & Gx & Gy).
  assert (Hn : 0 <= y * w + x < h * w) by nia.
  destruct (get_permute_021 g0 1 2 (h * w) 0 (y * w + x) 0 Es)
    as (t & Et & Est & _ & G0); try lia.
  destruct (get_permute_021 g0 1 2 (h * w) 0 (y * w + x) 1 Es)
    as (t1 & Et1 & _ & _ & G1); try lia.
  rewrite Et in Et1. injection Et1 as <-.
  unfold HomographyWarper_init in E. rewrite Eg in E. cbn [bind] in E.
  rewrite Et in E. cbn [bind] in E. injection E as <-.
  rewrite Gx in G0. rewrite Gy in G1.
  rewrite axis_normalized_nth in G0, G1 by lia.
  unfold x in G0 at 2. unfold y in G1 at 2. rewrite Nat2Z.id in G0, G1.
  unfold get in G0, G1. rewrite Est in G0, G1.
  unfold flat_index in G0, G1. cbn [combine fold_left fst snd] in G0, G1.
  assert (E0 : Z.to_nat (((0 * 1 + 0) * (h * w) + (y * w + x)) * 2 + 0) =
               ((i * Z.to_nat w + j) * 2)%nat).
  { unfold x, y. apply Nat2Z.inj. rewrite Z2Nat.id by nia.
    rewrite !Nat2Z.inj_mul, Nat2Z.inj_add, Nat2Z.inj_mul, Z2Nat.id by lia.
    change (Z.of_nat 2) with 2. ring. }
  assert (E1 : Z.to_nat (((0 * 1 + 0) * (h * w) + (y * w + x)) * 2 + 1) =
               S ((i * Z.to_nat w + j) * 2)).
  { rewrite <- E0. rewrite <- Z2Nat.inj_succ by nia. f_equal. lia. }
  rewrite E0 in G0. rewrite E1 in G1. split; assumption.
Qed.

Lemma to_nat_index4 (n c i j : nat) (C h w : Z) :
  0 <= C -> 0 <= h -> 0 <= w ->
  Z.to_nat (((znat n * C + znat c) * h + znat i) * w + znat j) =
  (((n * Z.to_nat C + c) * Z.to_nat h + i) * Z.to_nat w + j)%nat.
Proof.
  intros HC Hh Hw. unfold znat. apply Nat2Z.inj.
  rewrite Z2Nat.id by nia.
  repeat (rewrite Nat2Z.inj_add || rewrite Nat2Z.inj_mul).
  rewrite !Z2Nat.id by lia. reflexivity.
Qed.

Lemma map_as_flat_map {A B : Type} (f : A -> B) (l : list A) :
  map f l = flat_map (fun a => [f a]) l.
Proof. induction l as [| a l IH]; simpl; [ reflexivity | now rewrite IH ]. Qed.

Lemma map_nth_seq (l : list Q) :
  map (fun k => nth k l 0%Q) (seq 0 (length l)) = l.
Proof.
  induction l as [| a l IH]; [ reflexivity | ].
  cbn [length seq map nth]. f_equal.
  rewrite <- seq_shift, map_map. exact IH.
Qed.

(** Four nested loops in row-major order visit the flat positions in
    order. *)
Lemma flat_map_nested_4 {A : Type} (F : nat -> list A) (a b c d : nat) :
  flat_map (fun n =>
    flat_map (fun k =>
      flat_map (fun i =>
        flat_map (fun j => F (((n * b + k) * c + i) * d + j)%nat) (seq 0 d))
        (seq 0 c))
      (seq 0 b))
    (seq 0 a) =
  flat_map F (seq 0 (a * b * c * d)).
Proof.
  set (f1 := fun m => flat_map (fun j => F (m * d + j)%nat) (seq 0 d)).
  set (f2 := fun m => flat_map (fun i => f1 (m * c + i)%nat) (seq 0 c)).
  transitivity (flat_map f2 (seq 0 (a * b)));
    [ exact (flat_map_nested_seq f2 a b) | ].
  transitivity (flat_map f1 (seq 0 (a * b * c)));
    [ exact (flat_map_nested_seq f1 (a * b) c) | ].
  exact (flat_map_nested_seq F (a * b * c) d).
Qed.

(** *** [forward] under the identity *)

Lemma shape4_nonneg (a b c d : Z) :
  Forall (fun n => 0 <= n) [a; b; c; d] -> 0 <= a /\ 0 <= b /\ 0 <= c /\ 0 <= d.
Proof.
  intros H. rewrite Forall_forall in H.
  repeat split; apply H; simpl; auto.
Qed.

Lemma grid_sample_template (b : nat) (C h w : Z) (patch g : Tensor)
                           (pm : string) :
  shape patch = [Z.of_nat b; C; h; w] -> wf patch ->
  pm = "zeros" \/ pm = "border" ->
  HomographyWarper_init h w None = Ok (mkWarper h w g) ->
  shape g = [1; h * w; 2] -> wf g ->
  grid_sample patch
    (mkTensor [Z.of_nat b; h; w; 2] (concat (repeat (data g) b)) (device patch))
    "bilinear" pm =
  Ok (mkTensor (shape patch) (map Qred (data patch)) (device patch)).
Proof.
  intros Es [Hs Hl] Hpm Ei Eg [_ Lg]. rewrite Es in Hs, Hl. rewrite Eg in Lg.
  destruct (shape4_nonneg _ _ _ _ Hs) as (_ & HC & Hh & Hw).
  set (Cn := Z.to_nat C). set (Hn := Z.to_nat h). set (Wn := Z.to_nat w).
  assert (LG : length (data g) = (Hn * Wn * 2)%nat).
  { apply Nat2Z.inj. rewrite Lg. unfold numel, fold_right, Hn, Wn.
    rewrite !Nat2Z.inj_mul, !Z2Nat.id by assumption.
    change (Z.of_nat 2) with 2. ring. }
  assert (LP : length (data patch) = (b * Cn * Hn * Wn)%nat).
  { apply Nat2Z.inj. rewrite Hl. unfold numel, fold_right, Cn, Hn, Wn.
    rewrite !Nat2Z.inj_mul, !Z2Nat.id by assumption. ring. }
  unfold grid_sample. rewrite Es. cbn [shape data device].
  change (String.eqb "bilinear" "bilinear" || String.eqb "bilinear" "nearest")
    with true.
  assert (Epm : String.eqb pm "zeros" || String.eqb pm "border" = true)
    by (destruct Hpm; subst; reflexivity).
  rewrite Epm. cbn [negb]. rewrite device_eqb_refl. cbn [negb].
  rewrite Z.eqb_refl. change (2 =? 2) with true. cbn [andb].
  f_equal. f_equal. rewrite Nat2Z.id. fold Cn Hn Wn.
  set (F := fun k : nat => [Qred (nth k (data patch) 0%Q)]).
  transitivity (flat_map F (seq 0 (b * Cn * Hn * Wn))).
  - rewrite <- (flat_map_nested_4 F b Cn Hn Wn).
    apply flat_map_ext_in. intros n Hin. apply in_seq in Hin.
    apply flat_map_ext_in. intros c Hic. apply in_seq in Hic.
    apply flat_map_ext_in. intros i Hii. apply in_seq in Hii.
    rewrite map_as_flat_map.
    apply flat_map_ext_in. intros j Hij. apply in_seq in Hij.
    unfold F. f_equal.
    assert (Ek : Z.to_nat (((znat n * h + znat i) * w + znat j) * 2) =
                 (n * length (data g) + (i * Wn + j) * 2)%nat).
    { rewrite LG. unfold znat, Hn, Wn. apply Nat2Z.inj.
      rewrite Z2Nat.id by nia.
      repeat (rewrite Nat2Z.inj_add || rewrite Nat2Z.inj_mul).
      rewrite !Z2Nat.id by lia. change (Z.of_nat 2) with 2. ring. }
    rewrite Ek.
    replace (S (n * length (data g) + (i * Wn + j) * 2))
      with (n * length (data g) + S ((i * Wn + j) * 2))%nat by lia.
    rewrite !nth_concat_repeat by (rewrite ?LG; nia).
    destruct (template_grid_nth h w g i j Ei) as [Gx Gy]; [ lia | lia | ].
    fold Wn in Gx, Gy. rewrite Gx, Gy.
    rewrite (sample_at_pixel patch C h w (znat n) (znat c) (znat i) (znat j));
      try (unfold znat; lia);
      try (apply unnormalize_linspace; lia).
    rewrite pixel_inside by (unfold znat; lia).
    rewrite to_nat_index4 by assumption. reflexivity.
  - rewrite <- LP. unfold F. rewrite <- map_as_flat_map.
    rewrite <- (map_map (fun k => nth k (data patch) 0%Q) Qred).
    now rewrite map_nth_seq.
Qed.

(** X12. Warping with the identity returns the image.  For an image of
    shape (b, C, h, w), a full-image warper of the same height and width,
    [b] identity homographies on the image's device and either padding mode,
    [forward] returns a tensor of the image's shape and device holding the
    image's own elements (each in reduced form): every destination pixel's
    grid location is the centre of the same source pixel, so the bilinear
    weights are 1 for that pixel and 0 for its neighbours.  The same holds
    for [homography_warp] with [dsize = (h, w)].  Elements are exact
    rationals. *)
Theorem forward_identity :
  forall (b : nat) (C h w : Z) (patch : Tensor) (pm : string),
    shape patch = [Z.of_nat b; C; h; w] -> wf patch ->
    pm = "zeros" \/ pm = "border" ->
    exists self,
      HomographyWarper_init h w None = Ok self /\
      forward self patch (eye3 b (device patch)) pm =
      Ok (mkTensor (shape patch) (map Qred (data patch)) (device patch)) /\
      homography_warp patch (eye3 b (device patch)) (h, w) None pm =
      Ok (mkTensor (shape patch) (map Qred (data patch)) (device patch)).
Proof.
  intros b C h w patch pm Es Wf Hpm.
  assert (HC : 0 <= h /\ 0 <= w).
  { destruct Wf as [Hs _]. rewrite Es in Hs.
    destruct (shape4_nonneg _ _ _ _ Hs) as (_ & _ & Hh & Hw). now split. }
  destruct HC as (Hh & Hw).
  destruct (template_grid_canonical h w Hh Hw) as (g & Ei & Eg & _ & Wg & Hc).
  exists (mkWarper h w g). split; [ exact Ei | ].
  assert (Ef : forward (mkWarper h w g) patch (eye3 b (device patch)) pm =
               Ok (mkTensor (shape patch) (map Qred (data patch)) (device patch))).
  { unfold forward. cbn [eye3 device]. rewrite device_eqb_refl. cbn [negb].
    change (mkTensor [Z.of_nat b; 3; 3]
              (concat (repeat [1; 0; 0; 0; 1; 0; 0; 0; 1]%Q b)) (device patch))
      with (eye3 b (device patch)).
    rewrite (warp_grid_identity_data h w b (device patch) g Hh Hw Eg Wg Hc).
    cbn [bind]. now apply (grid_sample_template b C h w). }
  split; [ exact Ef | ].
  unfold homography_warp, module_call. rewrite Ei. cbn [bind]. exact Ef.
Qed.

Lemma forward_identity_witness :
  exists self,
    HomographyWarper_init 2 2 None = Ok self /\
    forward self image22 (eye3 1 (device image22)) "zeros" =
    Ok (mkTensor (shape image22) (map Qred (data image22)) (device image22)) /\
    homography_warp image22 (eye3 1 (device image22)) (2, 2) None "zeros" =
    Ok (mkTensor (shape image22) (map Qred (data image22)) (device image22)).
Proof.
  apply (forward_identity 1 1 2 2 image22 "zeros").
  - reflexivity.
  - split; [ repeat constructor; lia | reflexivity ].
  - left. reflexivity.
Defined.

(** ** The outcomes of [homography_warp] in full-image mode *)


(** ** The unit tests of the point conversions *)

(** X14. [test_convert_points_to_homogeneous] passes for every random
    draw: the last component of every converted point is 1, so the
    comparison with [torch.ones(1, 2, 1)], broadcast to shape (1, 2, 2),
    holds at every position and the assertion does not fail.  The
    conversion is the one described for the [conversions] module. *)
Theorem test_convert_points_to_homogeneous_passes :
  forall draws : nat -> Q, test_convert_points_to_homogeneous draws = Ok tt.
Proof. intros draws. reflexivity. Qed.

(** X15. [test_convert_points_from_homogeneous] passes for every random
    draw: once the last component of every point has been set to 1, the
    conversion returns the first two components of every point as they
    are, so the comparison holds at every position and the assertion does
    not fail.  The conversion is the one described for the [conversions]
    module. *)
Theorem test_convert_points_from_homogeneous_passes :
  forall draws : nat -> Q, test_convert_points_from_homogeneous draws = Ok tt.
Proof.
  intros draws.
  unfold test_convert_points_from_homogeneous, tensor_eq, tensor_all.
  cbv -[Qeq_bool]. rewrite !Qeq_bool_refl. reflexivity.
Qed.

(** ** [crop_and_warp] on the full image *)

(** C5. With the identity homography and the full image as region of
    interest, [crop_and_warp] does not return what [forward] returns:
    [forward] returns the image, and [crop_and_warp] raises [NameError] for
    [Variable], which the module never imports.  This is so on the 2x2
    warper and image, and for every image of height and width at least 1
    with the full-image warper of its size. *)
Theorem crop_and_warp_full_roi_defect :
  (forward warper22 image22 (eye3 1 cpu) "zeros" =
     Ok (mkTensor [1; 1; 2; 2] [1; 2; 3; 4]%Q cpu) /\
   crop_and_warp warper22 (eye3 1 cpu) image22 [0; 2; 0; 2] "zeros" =
     Err (NameError "Variable")) /\
  (forall (b : nat) (C h w : Z) (image : Tensor) (pm : string),
     shape image = [Z.of_nat b; C; h; w] -> wf image -> 1 <= h -> 1 <= w ->
     pm = "zeros" \/ pm = "border" ->
     exists self,
       HomographyWarper_init h w None = Ok self /\
       forward self image (eye3 b (device image)) pm =
         Ok (mkTensor (shape image) (map Qred (data image)) (device image)) /\
       crop_and_warp self (eye3 b (device image)) image [0; h; 0; w] pm =
         Err (NameError "Variable")).
Proof.
  split; [ split; reflexivity | ].
  intros b C h w image pm Es Wf Hh Hw Hpm.
  assert (Hh0 : 0 <= h) by lia. assert (Hw0 : 0 <= w) by lia.
  destruct (template_grid_canonical h w Hh0 Hw0) as (g & Ei & Eg & _ & Wg & Hc).
  pose proof (warp_grid_identity_data h w b (device image) g Hh0 Hw0 Eg Wg Hc)
    as Ew.
  exists (mkWarper h w g). split; [ exact Ei | ]. split.
  - unfold forward. cbn [eye3 device]. rewrite device_eqb_refl. cbn [negb].
    change (mkTensor [Z.of_nat b; 3; 3]
              (concat (repeat [1; 0; 0; 0; 1; 0; 0; 0; 1]%Q b)) (device image))
      with (eye3 b (device image)).
    rewrite Ew. cbn [bind]. now apply (grid_sample_template b C h w).
  - unfold crop_and_warp, crop_and_warp_in. rewrite Ew, Es.
    cbn [bind length Nat.eqb py_assert nth].
    unfold roi_coefficients. cbn [py_index nth_error bind].
    rewrite !py_truediv_ok by lia. cbn [bind].
    apply remap_and_resample_unbound.
Qed.
